(** * DeFi risk scanner: a shallow embedding and its verified properties

    The development embeds the two programs of the repository,

      - [defi_risk_scanner.py]: [to_int], [normalize], [score];
      - [risk_scanner.py]: [RULES], [analyze];

    together with the fragment of the Python runtime they rely on
    (exceptions, truthiness and [or], [int()], [float()], binary64
    arithmetic, [round], [statistics.quantiles], [collections.Counter],
    [re.search]).  Python exceptions are values of an error monad, floats
    are IEEE-754 binary64 numbers (the specification floats of the
    standard library, instantiated at precision 53), integers are
    unbounded ([Z]), dictionaries received from the loader are finite
    maps, and strings are sequences of 8-bit characters (case mapping and
    case-insensitive matching are those of the ASCII letters). *)

From Stdlib Require Import ZArith List String Ascii Bool Lia.
From Stdlib Require Import Floats.SpecFloat.
From Stdlib Require Import Decimal DecimalString DecimalNat.
From Stdlib Require Import Sorted Permutation.
From stdpp Require Import base gmap strings.
Import ListNotations.

Local Open Scope string_scope.
Local Open Scope Z_scope.

(** ** The Python runtime fragment *)

Module Py.

(** Exceptions the two programs can meet. *)
Inductive exn :=
| ValueError | TypeError | AttributeError | IndexError | OverflowError
| ZeroDivisionError | StatisticsError.

(** A computation either returns or raises. *)
Inductive result (A : Type) :=
| Ok (a : A)
| Raise (e : exn).
Arguments Ok {A} a.
Arguments Raise {A} e.

Definition bind {A B} (m : result A) (k : A -> result B) : result B :=
  match m with
  | Ok a => k a
  | Raise e => Raise e
  end.

Fixpoint mapM {A B} (f : A -> result B) (l : list A) : result (list B) :=
  match l with
  | [] => Ok []
  | x :: l' =>
      bind (f x) (fun y => bind (mapM f l') (fun ys => Ok (y :: ys)))
  end.

(** Interpreter generations that differ on [statistics.quantiles]:
    up to 3.12 a single data point raises [StatisticsError], from 3.13
    on it is repeated [n - 1] times. *)
Inductive version := Py38_312 | Py313.

(** *** binary64 *)

Definition float := spec_float.
Definition prec : Z := 53.
Definition emax : Z := 1024.

(** An integer as an exact (unrounded) operand. *)
Definition exact (z : Z) : float :=
  match z with
  | Z0 => S754_zero false
  | Zpos p => S754_finite false p 0
  | Zneg p => S754_finite true p 0
  end.

(** The nearest binary64 number of an integer (ties to even); an
    infinity when the integer is out of range. *)
Definition float_of_Z (z : Z) : float := binary_normalize prec emax z 0 false.

Definition is_infinity (f : float) : bool :=
  match f with S754_infinity _ => true | _ => false end.

(** [float(i)] for an [int]: "int too large to convert to float". *)
Definition int_to_float (z : Z) : result float :=
  let f := float_of_Z z in
  if is_infinity f then Raise OverflowError else Ok f.

(** [a / b] on two [int]s: the correctly rounded quotient. *)
Definition int_truediv (a b : Z) : result float :=
  if b =? 0 then Raise ZeroDivisionError
  else
    let q := SFdiv prec emax (exact a) (exact b) in
    if is_infinity q then Raise OverflowError else Ok q.

Definition fadd (x y : float) : float := SFadd prec emax x y.
Definition fsub (x y : float) : float := SFsub prec emax x y.
Definition fdiv (x y : float) : float := SFdiv prec emax x y.
Definition flt (x y : float) : bool := SFltb x y.
Definition fle (x y : float) : bool := SFleb x y.

(** Exact comparison of a float with an integer, as Python compares
    mixed operands; [None] for a NaN. *)
Definition fcompare_Z (f : float) (z : Z) : option comparison :=
  match f with
  | S754_nan => None
  | S754_zero _ => Some (0 ?= z)
  | S754_infinity s => Some (if s then Lt else Gt)
  | S754_finite s m e =>
      let sm := if s then Zneg m else Zpos m in
      Some (if 0 <=? e then (sm * 2 ^ e ?= z) else (sm ?= z * 2 ^ (- e)))
  end.

(** [f > z] and [z <= f]. *)
Definition fgt_Z (f : float) (z : Z) : bool :=
  match fcompare_Z f z with Some Gt => true | _ => false end.
Definition Zle_f (z : Z) (f : float) : bool :=
  match fcompare_Z f z with Some Gt | Some Eq => true | _ => false end.

(** [max(a, b)] and [min(a, b)] on floats: the first argument wins unless
    the second is strictly larger (smaller). *)
Definition fmax (a b : float) : float := if flt a b then b else a.
Definition fmin (a b : float) : float := if flt b a then b else a.

(** Nearest integer, ties to even, of [m / 2^k]. *)
Definition round_half_even_shift (m : Z) (k : Z) : Z :=
  let d := 2 ^ k in
  let q := m / d in
  let r := m mod d in
  match (2 * r ?= d) with
  | Lt => q
  | Gt => q + 1
  | Eq => if Z.even q then q else q + 1
  end.

(** [round(x, 2)]: the exact value of [x] is rounded to two decimals
    (ties to even) and the decimal is converted back to the nearest
    binary64 number. *)
Definition round2 (x : float) : float :=
  match x with
  | S754_finite s m e =>
      let n := if 0 <=? e then Zpos m * 2 ^ e * 100
               else round_half_even_shift (Zpos m * 100) (- e) in
      if n =? 0 then S754_zero s
      else SFdiv prec emax (exact (if s then - n else n)) (exact 100)
  | _ => x
  end.

(** [bool(f)] and [int(f)] for a float. *)
Definition float_truthy (f : float) : bool :=
  match f with S754_zero _ => false | _ => true end.

Definition float_to_int (f : float) : result Z :=
  match f with
  | S754_nan => Raise ValueError
  | S754_infinity _ => Raise OverflowError
  | S754_zero _ => Ok 0
  | S754_finite s m e =>
      let a := if 0 <=? e then Zpos m * 2 ^ e else Zpos m / 2 ^ (- e) in
      Ok (if s then - a else a)
  end.

End Py.

(** ** Strings *)

Module Str.

Definition code (c : ascii) : Z := Z.of_N (N_of_ascii c).
Definition chr (z : Z) : ascii := ascii_of_N (Z.to_N z).

Definition is_upper (c : ascii) : bool := (65 <=? code c) && (code c <=? 90).
Definition is_lower (c : ascii) : bool := (97 <=? code c) && (code c <=? 122).

Definition lower_char (c : ascii) : ascii :=
  if is_upper c then chr (code c + 32) else c.
Definition upper_char (c : ascii) : ascii :=
  if is_lower c then chr (code c - 32) else c.

(** [str.lower()] and [str.upper()]. *)
Fixpoint lower (s : string) : string :=
  match s with
  | EmptyString => EmptyString
  | String c s' => String (lower_char c) (lower s')
  end.

Fixpoint upper (s : string) : string :=
  match s with
  | EmptyString => EmptyString
  | String c s' => String (upper_char c) (upper s')
  end.

(** [needle in hay] for two strings. *)
Fixpoint contains (needle hay : string) : bool :=
  if String.prefix needle hay then true
  else
    match hay with
    | EmptyString => false
    | String _ hay' => contains needle hay'
    end.

(** [x in S] for a set of string literals. *)
Definition member (x : string) (set : list string) : bool :=
  existsb (String.eqb x) set.

(** [str(n)] for a length or a count. *)
Definition of_nat (n : nat) : string :=
  NilEmpty.string_of_uint (Nat.to_uint n).

(** The characters [str.strip()], [int()] and [float()] skip. *)
Definition is_space (c : ascii) : bool :=
  ((9 <=? code c) && (code c <=? 13))
  || ((28 <=? code c) && (code c <=? 32)).

Fixpoint lstrip (s : string) : string :=
  match s with
  | String c s' => if is_space c then lstrip s' else s
  | EmptyString => EmptyString
  end.

Fixpoint rstrip (s : string) : string :=
  match s with
  | EmptyString => EmptyString
  | String c s' =>
      match rstrip s' with
      | EmptyString => if is_space c then EmptyString else String c EmptyString
      | t => String c t
      end
  end.

Definition strip (s : string) : string := rstrip (lstrip s).

Definition digit_value (c : ascii) : option Z :=
  if (48 <=? code c) && (code c <=? 57) then Some (code c - 48) else None.

(** The rest of a [digitpart]: digits, each optionally preceded by one
    underscore.  Returns the value, the number of digits and the
    unread suffix. *)
Fixpoint digits_tail (acc : Z) (n : nat) (s : string) : Z * nat * string :=
  match s with
  | EmptyString => (acc, n, s)
  | String c s' =>
      match digit_value c with
      | Some d => digits_tail (acc * 10 + d) (S n) s'
      | None =>
          if Ascii.eqb c "_" then
            match s' with
            | String c2 s'' =>
                match digit_value c2 with
                | Some d => digits_tail (acc * 10 + d) (S n) s''
                | None => (acc, n, s)
                end
            | EmptyString => (acc, n, s)
            end
          else (acc, n, s)
      end
  end.

Definition digitpart (s : string) : option (Z * nat * string) :=
  match s with
  | String c s' =>
      match digit_value c with
      | Some d => Some (digits_tail d 1 s')
      | None => None
      end
  | EmptyString => None
  end.

(** An optional sign: [true] for a minus. *)
Definition sign (s : string) : bool * string :=
  match s with
  | String c s' =>
      if Ascii.eqb c "-" then (true, s')
      else if Ascii.eqb c "+" then (false, s')
      else (false, s)
  | EmptyString => (false, s)
  end.

End Str.

(** ** Loosely typed values and the built-in coercions *)

Module Builtins.
Import Py.

(** What the loader hands over: JSON values, or the strings of a CSV
    row. *)
#[warnings="-register-all"] Inductive pyval :=
| PNone
| PBool (b : bool)
| PInt (z : Z)
| PFloat (f : float)
| PStr (s : string)
| PList (items : list pyval)
| PDict (items : gmap string pyval).

(** [bool(v)]. *)
Definition truthy (v : pyval) : bool :=
  match v with
  | PNone => false
  | PBool b => b
  | PInt z => negb (z =? 0)
  | PFloat f => float_truthy f
  | PStr s => negb (String.eqb s "")
  | PList items => match items with [] => false | _ => true end
  | PDict items => negb (bool_decide (items = ∅))
  end.

(** [a or b]. *)
Definition py_or (a b : pyval) : pyval := if truthy a then a else b.

(** [d.get(k)]: the value, or [None] for an absent key. *)
Definition get (d : gmap string pyval) (k : string) : pyval :=
  match d !! k with
  | Some v => v
  | None => PNone
  end.

(** [int(s)] for a string: blanks, a sign, a [digitpart], blanks.  (The
    interpreter's configurable limit on the length of a decimal literal
    is not part of the model.) *)
Definition int_of_string (s : string) : result Z :=
  let '(neg, t) := Str.sign (Str.strip s) in
  match Str.digitpart t with
  | Some (n, _, EmptyString) => Ok (if neg then - n else n)
  | _ => Raise ValueError
  end.

(** The binary64 number nearest to [(-1)^neg * m * 10^e]. *)
Definition float_of_decimal (neg : bool) (m : Z) (e : Z) : float :=
  if m =? 0 then S754_zero neg
  else
    let sm := if neg then - m else m in
    if 0 <=? e then float_of_Z (sm * 10 ^ e)
    else SFdiv prec emax (exact sm) (exact (10 ^ (- e))).

(** The mantissa of a [floatnumber]:
    [[digitpart] "." digitpart | digitpart ["."]];
    returns the digits read as an integer, the number of fraction
    digits and the unread suffix. *)
Definition mantissa (t : string) : option (Z * nat * string) :=
  match Str.digitpart t with
  | Some (ip, _, rest) =>
      match rest with
      | String "."%char rest' =>
          match Str.digitpart rest' with
          | Some (fp, nf, rest'') => Some (ip * 10 ^ Z.of_nat nf + fp, nf, rest'')
          | None => Some (ip, 0%nat, rest')
          end
      | _ => Some (ip, 0%nat, rest)
      end
  | None =>
      match t with
      | String "."%char rest' =>
          match Str.digitpart rest' with
          | Some (fp, nf, rest'') => Some (fp, nf, rest'')
          | None => None
          end
      | _ => None
      end
  end.

(** The optional [exponent] that ends a [floatnumber]. *)
Definition exponent (rest : string) : option Z :=
  match rest with
  | EmptyString => Some 0
  | String c rest' =>
      if Ascii.eqb (Str.lower_char c) "e" then
        let '(neg, u) := Str.sign rest' in
        match Str.digitpart u with
        | Some (n, _, EmptyString) => Some (if neg then - n else n)
        | _ => None
        end
      else None
  end.

(** [float(s)] for a string. *)
Definition float_of_string (s : string) : result float :=
  let '(neg, t) := Str.sign (Str.strip s) in
  let name := Str.lower t in
  if String.eqb name "inf" || String.eqb name "infinity"
  then Ok (S754_infinity neg)
  else if String.eqb name "nan" then Ok S754_nan
  else
    match mantissa t with
    | Some (m, nf, rest) =>
        match exponent rest with
        | Some e => Ok (float_of_decimal neg m (e - Z.of_nat nf))
        | None => Raise ValueError
        end
    | None => Raise ValueError
    end.

(** [int(x)]. *)
Definition py_int (x : pyval) : result Z :=
  match x with
  | PBool b => Ok (if b then 1 else 0)
  | PInt z => Ok z
  | PFloat f => float_to_int f
  | PStr s => int_of_string s
  | PNone | PList _ | PDict _ => Raise TypeError
  end.

(** [float(x)]. *)
Definition py_float (x : pyval) : result float :=
  match x with
  | PBool b => Ok (float_of_Z (if b then 1 else 0))
  | PInt z => int_to_float z
  | PFloat f => Ok f
  | PStr s => float_of_string s
  | PNone | PList _ | PDict _ => Raise TypeError
  end.

(** [x.lower()] and [x.upper()]: only a [str] has the method. *)
Definition py_lower (x : pyval) : result string :=
  match x with
  | PStr s => Ok (Str.lower s)
  | _ => Raise AttributeError
  end.

Definition py_upper (x : pyval) : result string :=
  match x with
  | PStr s => Ok (Str.upper s)
  | _ => Raise AttributeError
  end.

End Builtins.

(** ** [defi_risk_scanner.py] *)

Module DefiRiskScanner.
Import Py Builtins.

(** [to_int(x, default=0)]: [int(x)], else [int(float(x))], else the
    default; every exception is swallowed. *)
Definition to_int (x : pyval) (default : Z) : Z :=
  match py_int x with
  | Ok n => n
  | Raise _ =>
      match bind (py_float x) float_to_int with
      | Ok n => n
      | Raise _ => default
      end
  end.

(** A canonical record, as [normalize] builds it. *)
Record tx := mk_tx {
  tx_hash : pyval;
  tx_from : string;
  tx_to : string;
  tx_method : string;
  tx_token : string;
  tx_value : float;
  tx_time : Z
}.

(** The dictionary literal in the body of the loop of [normalize]; the
    entries are evaluated in the order they are written. *)
Definition normalize_row (r : gmap string pyval) : result tx :=
  let h := py_or (get r "hash") (py_or (get r "txHash") (PStr "")) in
  bind (py_lower (py_or (get r "from") (py_or (get r "src") (PStr "")))) (fun f =>
  bind (py_lower (py_or (get r "to") (py_or (get r "dst") (PStr "")))) (fun t =>
  bind (py_lower (py_or (get r "method") (py_or (get r "functionName") (PStr "")))) (fun m =>
  bind (py_upper (py_or (get r "tokenSymbol") (py_or (get r "symbol") (PStr "")))) (fun k =>
  bind (py_float (py_or (get r "value") (py_or (get r "amount") (PInt 0)))) (fun v =>
  let v := if float_truthy v then v else float_of_Z 0 in
  let ts := to_int (py_or (get r "timeStamp")
                      (py_or (get r "timestamp") (py_or (get r "time") (PInt 0)))) 0 in
  Ok (mk_tx h f t m k v ts)))))).

(** [out.sort(key=lambda r: r["time"])]: the sort is stable, so its
    result is the one of a stable insertion sort. *)
Fixpoint insert_by_time (x : tx) (l : list tx) : list tx :=
  match l with
  | [] => [x]
  | y :: l' =>
      if tx_time x <=? tx_time y then x :: l else y :: insert_by_time x l'
  end.

Fixpoint sort_by_time (l : list tx) : list tx :=
  match l with
  | [] => []
  | x :: l' => insert_by_time x (sort_by_time l')
  end.

(** [normalize(rows, addr)]. *)
Definition normalize (rows : list (gmap string pyval)) (addr : string)
  : result (list tx) :=
  bind (mapM normalize_row rows) (fun out => Ok (sort_by_time out)).

Definition SUS_METHODS : list string :=
  ["permit"; "increaseallowance"; "setapprovalforall"; "permit2"].
Definition MIXERS : list string := ["0x5ace..."; "0x1111..."].
Definition PHISHING_TOKENS : list string := ["FAKE"; "SCAM"].

(** *** [statistics.quantiles(data, n=n)], method ['exclusive'] *)

(** A cut point: an [int] (a repeated single data point) or a float. *)
Inductive num := NInt (z : Z) | NFloat (f : float).

Fixpoint insert_sorted (x : Z) (l : list Z) : list Z :=
  match l with
  | [] => [x]
  | y :: l' => if x <=? y then x :: l else y :: insert_sorted x l'
  end.

Fixpoint sorted (l : list Z) : list Z :=
  match l with
  | [] => []
  | x :: l' => insert_sorted x (sorted l')
  end.

(** [data[i]] for an index in range. *)
Definition item (data : list Z) (i : Z) : Z := nth (Z.to_nat i) data 0.

(** [range(1, n)]. *)
Definition range1 (n : Z) : list Z :=
  map (fun k => Z.of_nat k + 1) (seq 0 (Z.to_nat (n - 1))).

Definition quantiles (v : version) (data : list Z) (n : Z) : result (list num) :=
  if n <? 1 then Raise StatisticsError
  else
    let data := sorted data in
    let ld := Z.of_nat (length data) in
    if ld <? 2 then
      match v with
      | Py38_312 => Raise StatisticsError
      | Py313 =>
          if ld =? 1
          then Ok (concat (repeat (map NInt data) (Z.to_nat (n - 1))))
          else Raise StatisticsError
      end
    else
      let m := ld + 1 in
      mapM (fun i =>
              let j := i * m / n in
              let j := if j <? 1 then 1 else if ld - 1 <? j then ld - 1 else j in
              let delta := i * m - j * n in
              bind (int_truediv (item data (j - 1) * (n - delta) + item data j * delta) n)
                   (fun q => Ok (NFloat q)))
           (range1 n).

(** [q / 5] for a cut point. *)
Definition div5 (q : num) : result float :=
  match q with
  | NInt z => int_truediv z 5
  | NFloat f => Ok (fdiv f (float_of_Z 5))
  end.

(** [g <= max(10, x)]: [max] keeps the [int] 10 unless [x > 10]. *)
Definition is_burst (x : float) (g : Z) : bool :=
  if fgt_Z x 10 then Zle_f g x else g <=? 10.

(** *** [score] *)

(** The two accumulators of [score]: [points] and [flags]. *)
Definition acc : Type := float * list string.

(** [flags.append(f)]. *)
Definition append (flags : list string) (f : string) : list string :=
  (flags ++ [f])%list.

(** [points += k] for an [int] [k]. *)
Definition add_points (points : float) (k : Z) : float :=
  fadd points (float_of_Z k).

(** 1) Mixer proximity. *)
Definition from_mixers (rows : list tx) (addr : string) : list tx :=
  List.filter (fun r => Str.member (tx_from r) MIXERS && String.eqb (tx_to r) addr) rows.

Definition mixer_block (rows : list tx) (addr : string) (st : acc) : acc :=
  let '(points, flags) := st in
  match from_mixers rows addr with
  | [] => st
  | fm =>
      (add_points points 35,
       append flags ("received from known mixer: " ++ Str.of_nat (length fm) ++ " txs"))
  end.

(** 2) Sensitive methods. *)
Definition is_approval (addr : string) (r : tx) : bool :=
  String.eqb (tx_from r) addr
  && existsb (fun m => Str.contains m (tx_method r)) SUS_METHODS.

Definition approvals (rows : list tx) (addr : string) : nat :=
  length (List.filter (is_approval addr) rows).

Definition approval_block (rows : list tx) (addr : string) (st : acc) : acc :=
  let '(points, flags) := st in
  let n := approvals rows addr in
  if (0 <? n)%nat then
    (add_points points (Z.min 25 (Z.of_nat n * 5)),
     append flags ("sensitive approvals: " ++ Str.of_nat n))
  else st.

(** 3) Burst activity. *)
Fixpoint gaps (rows : list tx) : list Z :=
  match rows with
  | r :: (r' :: _) as rest => (tx_time r' - tx_time r) :: gaps rest
  | _ => []
  end.

Definition bursts (v : version) (gs : list Z) : result nat :=
  bind (quantiles v gs 4) (fun qs =>
  match qs with
  | q1 :: _ =>
      bind (div5 q1) (fun x => Ok (length (List.filter (is_burst x) gs)))
  | [] => Raise IndexError
  end).

Definition burst_block (v : version) (rows : list tx) (st : acc) : result acc :=
  let '(points, flags) := st in
  match gaps rows with
  | [] => Ok st
  | gs =>
      bind (bursts v gs) (fun b =>
      if (3 <=? b)%nat then
        Ok (add_points points 10, append flags ("bot-like bursts: " ++ Str.of_nat b))
      else Ok st)
  end.

(** 4) Suspicious tokens. *)
Definition bad_tokens (rows : list tx) (addr : string) : list tx :=
  List.filter (fun r => Str.member (tx_token r) PHISHING_TOKENS && String.eqb (tx_to r) addr) rows.

Definition token_block (rows : list tx) (addr : string) (st : acc) : acc :=
  let '(points, flags) := st in
  match bad_tokens rows addr with
  | [] => st
  | bt =>
      (add_points points 10,
       append flags ("received suspicious tokens: " ++ Str.of_nat (length bt)))
  end.

(** 5) Wash patterns.  A [Counter] keeps its keys in the order of their
    first insertion, which is the order [items()] yields them in. *)
Definition pair : Type := string * string.

Definition pair_eqb (p q : pair) : bool :=
  String.eqb (fst p) (fst q) && String.eqb (snd p) (snd q).

Fixpoint counter_incr (k : pair) (c : list (pair * nat)) : list (pair * nat) :=
  match c with
  | [] => [(k, 1%nat)]
  | (k', n) :: c' =>
      if pair_eqb k k' then (k', S n) :: c' else (k', n) :: counter_incr k c'
  end.

Definition Counter (keys : list pair) : list (pair * nat) :=
  fold_left (fun c k => counter_incr k c) keys [].

Fixpoint counter_get (c : list (pair * nat)) (k : pair) (default : nat) : nat :=
  match c with
  | [] => default
  | (k', n) :: c' => if pair_eqb k k' then n else counter_get c' k default
  end.

Definition pair_counts (rows : list tx) : list (pair * nat) :=
  Counter (map (fun r => (tx_from r, tx_to r)) rows).

Definition wash_flag (a b : string) : string :=
  "wash-like transfers between " ++ a ++ " and " ++ b.

(** The [for] loop over [pair_counts.items()], left at the first hit. *)
Fixpoint wash_loop (counts items : list (pair * nat)) (addr : string) (st : acc) : acc :=
  match items with
  | [] => st
  | ((a, b), c) :: items' =>
      if String.eqb a addr || String.eqb b addr then
        let rev := counter_get counts (b, a) 0 in
        if (3 <=? c)%nat && (3 <=? rev)%nat then
          (add_points (fst st) 15, append (snd st) (wash_flag a b))
        else wash_loop counts items' addr st
      else wash_loop counts items' addr st
  end.

Definition wash_block (rows : list tx) (addr : string) (st : acc) : acc :=
  let counts := pair_counts rows in
  wash_loop counts counts addr st.

(** 6) Cold wallet.  [rows[-1]] exists: [rows] is not empty here. *)
Definition last_time (rows : list tx) : Z :=
  match rev rows with
  | r :: _ => tx_time r
  | [] => 0
  end.

Definition recent (rows : list tx) : list tx :=
  List.filter (fun r => last_time rows - tx_time r <? 30 * 24 * 3600) rows.

Definition cold_flag : string := "no recent activity (cold wallet)".

(** [max(0, points - 10)] is the [int] 0 when the difference is not
    positive; the final clamp turns that 0 into the float 0.0, which is
    how it is represented here. *)
Definition cold_block (rows : list tx) (st : acc) : acc :=
  let '(points, flags) := st in
  match recent rows with
  | [] =>
      let d := fsub points (float_of_Z 10) in
      (if fgt_Z d 0 then d else float_of_Z 0, append flags cold_flag)
  | _ => st
  end.

(** The six heuristics in sequence, from [points = 0.0] and [flags = []]. *)
Definition heuristics (v : version) (rows : list tx) (addr : string) : result acc :=
  let st := (float_of_Z 0, []) in
  let st := mixer_block rows addr st in
  let st := approval_block rows addr st in
  bind (burst_block v rows st) (fun st =>
  let st := token_block rows addr st in
  let st := wash_block rows addr st in
  Ok (cold_block rows st)).

(** [round(max(0.0, min(100.0, points)), 2)]. *)
Definition clamp (points : float) : float :=
  fmax (float_of_Z 0) (fmin (float_of_Z 100) points).

Definition final_score (points : float) : float := round2 (clamp points).

(** [score(rows, addr)]. *)
Definition score (v : version) (rows : list tx) (addr : string)
  : result (float * list string) :=
  let addr := Str.lower addr in
  match rows with
  | [] => Ok (float_of_Z 10, ["no history"])
  | _ =>
      bind (heuristics v rows addr) (fun st =>
      Ok (final_score (fst st), snd st))
  end.

End DefiRiskScanner.

(** ** [risk_scanner.py] *)

Module RiskScanner.

Record rule := mk_rule {
  id : string;
  regex : string;
  weight : Z;
  desc : string
}.

Definition RULES : list rule :=
  [ mk_rule "reentrancy" "call.value" 30 "Potential reentrancy (call.value)";
    mk_rule "selfdestruct" "selfdestruct" 40 "Contract selfdestruct";
    mk_rule "delegatecall" "delegatecall" 25 "Delegatecall detected" ].

(** [re.search(pattern, code, re.IGNORECASE)] for the patterns of
    [RULES]: literal characters, compared without case, and the dot,
    which stands for any character but a newline. *)
Definition newline : ascii := "010"%char.

Definition char_matches (p c : ascii) : bool :=
  if Ascii.eqb p "." then negb (Ascii.eqb c newline)
  else Ascii.eqb (Str.lower_char p) (Str.lower_char c).

Fixpoint match_here (pattern s : string) : bool :=
  match pattern with
  | EmptyString => true
  | String p pattern' =>
      match s with
      | EmptyString => false
      | String c s' => char_matches p c && match_here pattern' s'
      end
  end.

Fixpoint search (pattern s : string) : bool :=
  if match_here pattern s then true
  else
    match s with
    | EmptyString => false
    | String _ s' => search pattern s'
    end.

Record report := mk_report {
  risk : Z;
  reasons : list string
}.

(** One turn of the loop of [analyze]. *)
Definition apply_rule (code : string) (st : report) (r : rule) : report :=
  if search (regex r) code
  then mk_report (risk st + weight r) (reasons st ++ [desc r])%list
  else st.

Definition analyze_with (rules : list rule) (code : string) : report :=
  fold_left (apply_rule code) rules (mk_report 0 []).

(** [analyze(code)]. *)
Definition analyze (code : string) : report := analyze_with RULES code.

End RiskScanner.

(** ** Specification-level notions

    What the properties below are stated with: counting by a relation,
    substrings by decomposition, the contribution of each heuristic as
    a function of the history, and the statements that turn out not to
    hold of the code. *)

Module Spec.
Import Py Builtins DefiRiskScanner.

(** Structural equality of floats, as a test. *)
Definition feqb (x y : float) : bool :=
  match x, y with
  | S754_zero s, S754_zero s' => Bool.eqb s s'
  | S754_infinity s, S754_infinity s' => Bool.eqb s s'
  | S754_nan, S754_nan => true
  | S754_finite s m e, S754_finite s' m' e' =>
      Bool.eqb s s' && Pos.eqb m m' && Z.eqb e e'
  | _, _ => false
  end.

(** [0, 1, ..., n]. *)
Definition upto (n : nat) : list Z := map Z.of_nat (seq 0 (S n)).

(** [s] occurs in [t]. *)
Definition Substring (s t : string) : Prop :=
  exists pre post, t = (pre ++ s ++ post)%string.

(** [n] elements of the list satisfy [P]. *)
Inductive Count {A} (P : A -> Prop) : list A -> nat -> Prop :=
| Count_nil : Count P [] 0
| Count_hit x l n : P x -> Count P l n -> Count P (x :: l) (S n)
| Count_miss x l n : ~ P x -> Count P l n -> Count P (x :: l) n.

(** A record the approval heuristic counts. *)
Definition Approval (addr : string) (r : tx) : Prop :=
  tx_from r = addr /\ exists m, In m SUS_METHODS /\ Substring m (tx_method r).

(** The contribution of each heuristic. *)
Definition mixer_points (rows : list tx) (addr : string) : Z :=
  match from_mixers rows addr with [] => 0 | _ => 35 end.

Definition mixer_flags (rows : list tx) (addr : string) : list string :=
  match from_mixers rows addr with
  | [] => []
  | fm => ["received from known mixer: " ++ Str.of_nat (length fm) ++ " txs"]
  end.

Definition approval_points (n : nat) : Z :=
  match n with O => 0 | _ => Z.min 25 (Z.of_nat n * 5) end.

Definition approval_flags (n : nat) : list string :=
  match n with O => [] | _ => ["sensitive approvals: " ++ Str.of_nat n] end.

Definition burst_points (b : nat) : Z := if (3 <=? b)%nat then 10 else 0.

Definition burst_flags (b : nat) : list string :=
  if (3 <=? b)%nat then ["bot-like bursts: " ++ Str.of_nat b] else [].

Definition token_points (rows : list tx) (addr : string) : Z :=
  match bad_tokens rows addr with [] => 0 | _ => 10 end.

Definition token_flags (rows : list tx) (addr : string) : list string :=
  match bad_tokens rows addr with
  | [] => []
  | bt => ["received suspicious tokens: " ++ Str.of_nat (length bt)]
  end.

(** The number of transfers from [a] to [b]. *)
Definition transfers (rows : list tx) (a b : string) : nat :=
  length (List.filter (fun r => String.eqb (tx_from r) a && String.eqb (tx_to r) b) rows).

(** A directed pair the wash heuristic accepts. *)
Definition wash_pair (rows : list tx) (addr : string) (p : pair) : bool :=
  (String.eqb (fst p) addr || String.eqb (snd p) addr)
  && (3 <=? transfers rows (fst p) (snd p))%nat
  && (3 <=? transfers rows (snd p) (fst p))%nat.

Definition WashPair (rows : list tx) (addr a b : string) : Prop :=
  (a = addr \/ b = addr)
  /\ (3 <= transfers rows a b)%nat /\ (3 <= transfers rows b a)%nat.

(** The accepted pair that occurs first in the history. *)
Definition first_wash_pair (rows : list tx) (addr : string) : option pair :=
  find (wash_pair rows addr) (map (fun r => (tx_from r, tx_to r)) rows).

Definition wash_points (rows : list tx) (addr : string) : Z :=
  match first_wash_pair rows addr with Some _ => 15 | None => 0 end.

Definition wash_flags (rows : list tx) (addr : string) : list string :=
  match first_wash_pair rows addr with
  | Some (a, b) => [wash_flag a b]
  | None => []
  end.

(** The number of bursts of a history; none when there is no gap. *)
Definition burst_count (v : version) (rows : list tx) : result nat :=
  match gaps rows with
  | [] => Ok 0%nat
  | gs => bursts v gs
  end.

Definition total_points (rows : list tx) (addr : string) (b : nat) : Z :=
  mixer_points rows addr + approval_points (approvals rows addr)
  + burst_points b + token_points rows addr + wash_points rows addr.

Definition all_flags (rows : list tx) (addr : string) (b : nat) : list string :=
  (mixer_flags rows addr ++ approval_flags (approvals rows addr)
   ++ burst_flags b ++ token_flags rows addr ++ wash_flags rows addr)%list.

(** The first occurrences of the keys of a list, in order. *)
Fixpoint firsts (l : list pair) : list pair :=
  match l with
  | [] => []
  | k :: l' => k :: List.filter (fun k' => negb (pair_eqb k k')) (firsts l')
  end.

(** A key that a counter does not hold yet. *)
Definition fresh (c : list (pair * nat)) (k : pair) : bool :=
  negb (existsb (pair_eqb k) (map fst c)).

Definition is_wash_flag (f : string) : bool :=
  String.prefix "wash-like transfers between " f.

(** A history whose latest record comes at least thirty days after every
    other one. *)
Definition Dormant (rows : list tx) : Prop :=
  exists l x, rows = (l ++ [x])%list
              /\ Forall (fun r => 2592000 <= tx_time x - tx_time r) l.

(** A record with the fields the scorer reads. *)
Definition transfer (f t m k : string) (time : Z) : tx :=
  mk_tx (PStr "") f t m k (float_of_Z 0) time.

(** One transfer from a mixer and one other transfer, then nothing for
    thirty days until the latest transfer. *)
Definition cold_history : list tx :=
  [ transfer "0x5ace..." "0xabc" "" "" 0;
    transfer "0xdef" "0x123" "" "" 0;
    transfer "0xdef" "0x123" "" "" 2592000 ].

(** Three records, the latest with a time stamp beyond the range of
    binary64. *)
Definition overflow_history : list tx :=
  [ transfer "0xdef" "0x123" "" "" 0;
    transfer "0xdef" "0x123" "" "" 0;
    transfer "0xdef" "0x123" "" "" (2 ^ 1030) ].

(** Six sensitive calls by the target, a hundred seconds apart. *)
Definition permit_history : list tx :=
  map (fun i => transfer "0xabc" "0x123" "permit" "" (100 * i)) [1; 2; 3; 4; 5; 6].

(** Two pairs that both go back and forth three times with the target. *)
Definition wash_history : list tx :=
  concat (map (fun i =>
    [ transfer "0xabc" "0x111" "" "" (1000 * i);
      transfer "0x111" "0xabc" "" "" (1000 * i + 100);
      transfer "0x222" "0xabc" "" "" (1000 * i + 200);
      transfer "0xabc" "0x222" "" "" (1000 * i + 300) ]) [1; 2; 3]).

(** A history that triggers the five live heuristics: five sensitive
    calls by the target, three transfers back that carry a blacklisted
    token, and one transfer from a mixer, all in the same second. *)
Definition full_history : list tx :=
  (repeat (transfer "0xabc" "0x123" "permit" "" 0) 5
   ++ repeat (transfer "0x123" "0xabc" "" "FAKE" 0) 3
   ++ [transfer "0x5ace..." "0xabc" "" "" 0])%list.

(** The float a decimal literal denotes. *)
Definition dec (m e : Z) : float := float_of_decimal false m e.

(** The value of the first alias that is present, whatever it holds. *)
Fixpoint first_present (r : gmap string pyval) (aliases : list string)
  (default : pyval) : pyval :=
  match aliases with
  | [] => default
  | k :: aliases' =>
      match r !! k with
      | Some v => v
      | None => first_present r aliases' default
      end
  end.

(** The reading of alias selection by presence, for the sender and the
    amount of a raw record. *)
Definition SelectsFirstPresent (r : gmap string pyval) : Prop :=
  forall n, normalize_row r = Ok n ->
    py_lower (first_present r ["from"; "src"] (PStr "")) = Ok (tx_from n)
    /\ py_float (first_present r ["value"; "amount"] (PInt 0)) = Ok (tx_value n).

(** A raw record whose first aliases are present but empty or zero. *)
Definition falsy_first_aliases : gmap string pyval :=
  {[ "from" := PStr ""; "src" := PStr "0xABC";
     "value" := PInt 0; "amount" := PInt 5 ]}.

(** An alias that does not count: absent, or present with a value that
    is false in a condition ([None], [False], 0, 0.0, an empty string or
    container). *)
Definition Skipped (r : gmap string pyval) (k : string) : Prop :=
  r !! k = None \/ exists u, r !! k = Some u /\ truthy u = false.

(** The value selected among the aliases: the one of the first alias
    that holds a true value, else the default. *)
Inductive Selected (r : gmap string pyval) (default : pyval)
  : list string -> pyval -> Prop :=
| Selected_default : Selected r default [] default
| Selected_here k ks v :
    r !! k = Some v -> truthy v = true -> Selected r default (k :: ks) v
| Selected_later k ks v :
    Skipped r k -> Selected r default ks v -> Selected r default (k :: ks) v.

(** The chain [r.get(k1) or r.get(k2) or ... or default]. *)
Definition or_chain (r : gmap string pyval) (aliases : list string)
  (default : pyval) : pyval :=
  fold_right (fun k rest => py_or (get r k) rest) default aliases.

(** What [normalize] makes of the record [falsy_first_aliases]. *)
Definition falsy_first_aliases_tx : tx :=
  mk_tx (PStr "") "0xabc" "" "" "" (float_of_Z 5) 0.

(** A raw record with a malformed amount. *)
Definition malformed_amount : gmap string pyval :=
  {[ "from" := PStr "0xABC"; "value" := PStr "abc"; "timeStamp" := PStr "abc" ]}.

(** [s] occurs in [code], letter case ignored. *)
Definition IContains (s code : string) : Prop :=
  Substring (Str.lower s) (Str.lower code).

(** A pattern without a dot. *)
Fixpoint literal (pattern : string) : bool :=
  match pattern with
  | EmptyString => true
  | String c p => negb (Ascii.eqb c ".") && literal p
  end.

Definition sumZ (l : list Z) : Z := fold_right Z.add 0 l.

(** The rules a source text triggers, in the order of declaration. *)
Definition matched (rules : list RiskScanner.rule) (code : string)
  : list RiskScanner.rule :=
  List.filter (fun r => RiskScanner.search (RiskScanner.regex r) code) rules.

Definition sample_code : string :=
  "function kill() { selfdestruct(owner); } function f() { lib.DELEGATECALL(data); }".

End Spec.

(** ** Notions for the further properties

    Orderings, character classes and the raw keys the normalizer reads,
    used to state what the programs guarantee beyond the scoring rules. *)

Module Notions.
Import Py Builtins DefiRiskScanner.

(** The order [normalize] sorts by. *)
Definition le_time (a b : tx) : Prop := tx_time a <= tx_time b.

(** The records of one time stamp. *)
Definition at_time (t : Z) (r : tx) : bool := tx_time r =? t.

(** Every character of the string passes the test. *)
Fixpoint all_chars (p : ascii -> bool) (s : string) : bool :=
  match s with
  | EmptyString => true
  | String c s' => p c && all_chars p s'
  end.

Definition no_upper (s : string) : bool :=
  all_chars (fun c => negb (Str.is_upper c)) s.
Definition no_lower (s : string) : bool :=
  all_chars (fun c => negb (Str.is_lower c)) s.

(** Every key [normalize] looks up. *)
Definition alias_keys : list string :=
  [ "hash"; "txHash"; "from"; "src"; "to"; "dst"; "method"; "functionName";
    "tokenSymbol"; "symbol"; "value"; "amount"; "timeStamp"; "timestamp"; "time" ].

(** The record of defaults. *)
Definition default_tx : tx := mk_tx (PStr "") "" "" "" "" (float_of_Z 0) 0.

(** A cell of a CSV export: a string, or [None] for a missing cell. *)
Definition Cell (v : pyval) : Prop := v = PNone \/ exists s, v = PStr s.

(** The gaps of at most ten seconds. *)
Definition small_gaps (rows : list tx) : nat :=
  length (List.filter (fun g => g <=? 10) (gaps rows)).

(** Three raw rows: two share a time stamp, one has a falsy first alias. *)
Definition raw_sample : list (gmap string pyval) :=
  [ {[ "timeStamp" := PStr "20"; "from" := PStr "A" ]};
    {[ "time" := PInt 10; "src" := PStr "B"; "symbol" := PStr "fake" ]};
    {[ "timestamp" := PFloat (float_of_Z 10); "from" := PStr "C";
       "amount" := PStr "2.5" ]} ].

Definition raw_sample_tx : list tx :=
  [ mk_tx (PStr "") "b" "" "" "FAKE" (float_of_Z 0) 10;
    mk_tx (PStr "") "c" "" "" "" (float_of_decimal false 25 (-1)) 10;
    mk_tx (PStr "") "a" "" "" "" (float_of_Z 0) 20 ].

(** The row-by-row normalisations of [raw_sample], in input order. *)
Definition raw_sample_unsorted : list tx :=
  [ mk_tx (PStr "") "a" "" "" "" (float_of_Z 0) 20;
    mk_tx (PStr "") "b" "" "" "FAKE" (float_of_Z 0) 10;
    mk_tx (PStr "") "c" "" "" "" (float_of_decimal false 25 (-1)) 10 ].

(** A row of empty cells with a column the normalizer does not read. *)
Definition blank_row : gmap string pyval :=
  {[ "from" := PStr ""; "to" := PNone; "value" := PStr ""; "memo" := PStr "x" ]}.

(** A row of a CSV export. *)
Definition csv_row : gmap string pyval :=
  {[ "hash" := PStr "0x01"; "from" := PStr "0xABC"; "to" := PStr "0xDEF";
     "value" := PStr "1.5"; "timeStamp" := PStr "1700000000"; "symbol" := PNone ]}.



(** A transfer received from a listed mixer, and one that carries a
    blacklisted token. *)
Definition FromMixer (addr : string) (r : tx) : Prop :=
  In (tx_from r) MIXERS /\ tx_to r = addr.

Definition BadToken (addr : string) (r : tx) : Prop :=
  In (tx_token r) PHISHING_TOKENS /\ tx_to r = addr.

(** Time stamps of at most a thousand bits, far beyond any calendar. *)
Definition time_bound : Z := 2 ^ 1000.

Definition bounded_times (rows : list tx) : Prop :=
  forall r, In r rows -> - time_bound < tx_time r < time_bound.

End Notions.

(** * Properties *)

Import Py Builtins DefiRiskScanner RiskScanner Spec Notions.

(** ** Golden vectors

    The runtime fragment agrees with the interpreter on these inputs. *)

Example quantiles_five :
  quantiles Py38_312 [1; 2; 3; 4; 5] 4
  = Ok [NFloat (dec 15 (-1)); NFloat (dec 3 0); NFloat (dec 45 (-1))].
Proof. vm_compute. reflexivity. Qed.

Example quantiles_unsorted :
  quantiles Py313 [5; 1; 9; 12; 7; 3; 3; 8] 4
  = Ok [NFloat (dec 3 0); NFloat (dec 6 0); NFloat (dec 875 (-2))].
Proof. vm_compute. reflexivity. Qed.

Example quantiles_extrapolates :
  quantiles Py38_312 [0; 2592000] 4
  = Ok [NFloat (float_of_Z (-648000)); NFloat (float_of_Z 1296000);
        NFloat (float_of_Z 3240000)].
Proof. vm_compute. reflexivity. Qed.

Example quantiles_single_point :
  quantiles Py38_312 [100] 4 = Raise StatisticsError
  /\ quantiles Py313 [100] 4 = Ok [NInt 100; NInt 100; NInt 100].
Proof. split; vm_compute; reflexivity. Qed.

Example round2_ties_to_even :
  round2 (dec 125 (-3)) = dec 12 (-2) /\ round2 (dec 375 (-3)) = dec 38 (-2).
Proof. split; vm_compute; reflexivity. Qed.

Example round2_binary_value : round2 (dec 2675 (-3)) = dec 267 (-2).
Proof. vm_compute. reflexivity. Qed.

Example to_int_examples :
  to_int (PStr " 42 ") 0 = 42 /\ to_int (PStr "-3.9") 0 = -3
  /\ to_int (PStr "1e3") 0 = 1000 /\ to_int (PStr "inf") 0 = 0
  /\ to_int PNone 7 = 7 /\ to_int (PBool true) 0 = 1.
Proof. repeat split; vm_compute; reflexivity. Qed.

Example float_of_string_examples :
  float_of_string " 1_0.5e-1 " = Ok (dec 105 (-2))
  /\ float_of_string "-Infinity" = Ok (S754_infinity true)
  /\ float_of_string "." = Raise ValueError
  /\ float_of_string "1__0" = Raise ValueError.
Proof. repeat split; vm_compute; reflexivity. Qed.

Example normalize_sorts_stably :
  normalize
    [ {[ "timeStamp" := PStr "20"; "from" := PStr "A" ]};
      {[ "time" := PInt 10; "src" := PStr "B"; "symbol" := PStr "fake" ]};
      {[ "timestamp" := PFloat (float_of_Z 10); "from" := PStr "C";
         "amount" := PStr "2.5" ]} ] "0xabc"
  = Ok [ mk_tx (PStr "") "b" "" "" "FAKE" (float_of_Z 0) 10;
         mk_tx (PStr "") "c" "" "" "" (dec 25 (-1)) 10;
         mk_tx (PStr "") "a" "" "" "" (float_of_Z 0) 20 ].
Proof. vm_compute. reflexivity. Qed.

Example analyze_sample :
  analyze "contract X { function attack() { selfdestruct(msg.sender); }}"
  = mk_report 40 ["Contract selfdestruct"].
Proof. vm_compute. reflexivity. Qed.

Example analyze_dot_is_any_character :
  analyze "msg.sender.call{value: 1}()"
  = mk_report 30 ["Potential reentrancy (call.value)"].
Proof. vm_compute. reflexivity. Qed.

(** ** Arithmetic on small integers is exact *)

Lemma feqb_eq (x y : float) : feqb x y = true -> x = y.
Proof.
  destruct x as [s|s| |s m e], y as [s'|s'| |s' m' e']; simpl; try discriminate.
  - intros H. apply Bool.eqb_prop in H. now subst.
  - intros H. apply Bool.eqb_prop in H. now subst.
  - reflexivity.
  - intros H.
    apply andb_prop in H as [H He]. apply andb_prop in H as [Hs Hm].
    apply Bool.eqb_prop in Hs. apply Pos.eqb_eq in Hm. apply Z.eqb_eq in He.
    now subst.
Qed.

Lemma in_upto (n : nat) (a : Z) : 0 <= a <= Z.of_nat n -> In a (upto n).
Proof.
  intros H. unfold upto.
  replace a with (Z.of_nat (Z.to_nat a)) by lia.
  apply in_map. apply in_seq. lia.
Qed.

(** Sums of small integers are exact in binary64: checked by running
    the addition on every pair of [0..100]. *)
Lemma add_exact_100 (a k : Z) :
  In a (upto 100) -> In k (upto 100) ->
  feqb (add_points (float_of_Z a) k) (float_of_Z (a + k)) = true.
Proof.
  assert (H : forallb (fun a => forallb (fun k =>
            feqb (add_points (float_of_Z a) k) (float_of_Z (a + k)))
            (upto 100)) (upto 100) = true)
    by (vm_compute; reflexivity).
  intros Ha Hk.
  rewrite forallb_forall in H. specialize (H a Ha). cbv beta in H.
  rewrite forallb_forall in H. exact (H k Hk).
Qed.

Lemma add_points_small (a k : Z) :
  0 <= a <= 100 -> 0 <= k <= 100 ->
  add_points (float_of_Z a) k = float_of_Z (a + k).
Proof.
  intros Ha Hk. apply feqb_eq, add_exact_100; apply in_upto; lia.
Qed.

(** The final clamp and rounding leave an integer of [0..100] alone. *)
Lemma final_exact_100 (a : Z) :
  In a (upto 100) ->
  feqb (fmin (float_of_Z 100) (float_of_Z a)) (float_of_Z a)
  && feqb (clamp (float_of_Z a)) (float_of_Z a)
  && feqb (round2 (float_of_Z a)) (float_of_Z a)
  && fle (float_of_Z 0) (float_of_Z a)
  && fle (float_of_Z a) (float_of_Z 100) = true.
Proof.
  assert (H : forallb (fun a =>
            feqb (fmin (float_of_Z 100) (float_of_Z a)) (float_of_Z a)
            && feqb (clamp (float_of_Z a)) (float_of_Z a)
            && feqb (round2 (float_of_Z a)) (float_of_Z a)
            && fle (float_of_Z 0) (float_of_Z a)
            && fle (float_of_Z a) (float_of_Z 100)) (upto 100) = true)
    by (vm_compute; reflexivity).
  intros Ha. rewrite forallb_forall in H. exact (H a Ha).
Qed.

Lemma final_small (a : Z) :
  0 <= a <= 100 ->
  fmin (float_of_Z 100) (float_of_Z a) = float_of_Z a
  /\ clamp (float_of_Z a) = float_of_Z a
  /\ round2 (float_of_Z a) = float_of_Z a
  /\ fle (float_of_Z 0) (float_of_Z a) = true
  /\ fle (float_of_Z a) (float_of_Z 100) = true.
Proof.
  intros Ha.
  assert (H := final_exact_100 a (in_upto 100 a ltac:(lia))).
  repeat (apply andb_prop in H as [H ?]).
  repeat split; try apply feqb_eq; assumption.
Qed.

Lemma final_score_small (a : Z) :
  0 <= a <= 100 -> final_score (float_of_Z a) = float_of_Z a.
Proof.
  intros Ha. unfold final_score.
  destruct (final_small a Ha) as (_ & Hc & Hr & _).
  now rewrite Hc.
Qed.

(** ** The heuristics, block by block *)

Lemma mixer_points_range rows addr :
  mixer_points rows addr = 0 \/ mixer_points rows addr = 35.
Proof. unfold mixer_points. destruct (from_mixers rows addr); auto. Qed.

Lemma approval_points_range n :
  0 <= approval_points n <= 25 /\ (5 | approval_points n).
Proof.
  destruct n as [|n]; simpl approval_points.
  - split; [lia | exists 0; lia].
  - split; [lia|].
    destruct (Z.min_spec 25 (Z.of_nat (S n) * 5)) as [[_ ->]|[_ ->]].
    + exists 5; lia.
    + exists (Z.of_nat (S n)); lia.
Qed.

Lemma burst_points_range b : burst_points b = 0 \/ burst_points b = 10.
Proof. unfold burst_points. destruct (3 <=? b)%nat; auto. Qed.

Lemma token_points_range rows addr :
  token_points rows addr = 0 \/ token_points rows addr = 10.
Proof. unfold token_points. destruct (bad_tokens rows addr); auto. Qed.

Lemma wash_points_range rows addr :
  wash_points rows addr = 0 \/ wash_points rows addr = 15.
Proof. unfold wash_points. destruct (first_wash_pair rows addr); auto. Qed.

Lemma total_points_range rows addr b :
  0 <= total_points rows addr b <= 95 /\ (5 | total_points rows addr b).
Proof.
  unfold total_points.
  destruct (approval_points_range (approvals rows addr)) as [Ha [k Hk]].
  destruct (mixer_points_range rows addr) as [-> | ->],
           (burst_points_range b) as [-> | ->],
           (token_points_range rows addr) as [-> | ->],
           (wash_points_range rows addr) as [-> | ->];
    (split; [lia|]); rewrite Hk;
    repeat apply Z.divide_add_r;
    solve [ exists k; reflexivity
          | match goal with
            | |- (5 | ?n) => let c := eval cbv in (n / 5) in exists c; reflexivity
            end ].
Qed.

Lemma mixer_block_small rows addr a fl :
  0 <= a <= 60 ->
  mixer_block rows addr (float_of_Z a, fl)
  = (float_of_Z (a + mixer_points rows addr), (fl ++ mixer_flags rows addr)%list).
Proof.
  intros Ha. unfold mixer_block, mixer_points, mixer_flags, append.
  destruct (from_mixers rows addr).
  - now rewrite Z.add_0_r, app_nil_r.
  - now rewrite add_points_small by lia.
Qed.

Lemma approval_block_small rows addr a fl :
  0 <= a <= 60 ->
  approval_block rows addr (float_of_Z a, fl)
  = (float_of_Z (a + approval_points (approvals rows addr)),
     (fl ++ approval_flags (approvals rows addr))%list).
Proof.
  intros Ha. unfold approval_block, append.
  pose proof (approval_points_range (approvals rows addr)) as [Hr _].
  destruct (approvals rows addr) as [|n] eqn:E; simpl Nat.ltb; cbv iota.
  - simpl. now rewrite Z.add_0_r, app_nil_r.
  - rewrite add_points_small; [reflexivity | lia | simpl approval_points in Hr; lia].
Qed.

Lemma burst_block_small v rows a fl :
  0 <= a <= 60 ->
  burst_block v rows (float_of_Z a, fl)
  = bind (burst_count v rows) (fun b =>
      Ok (float_of_Z (a + burst_points b), (fl ++ burst_flags b)%list)).
Proof.
  intros Ha. unfold burst_block, burst_count, burst_points, burst_flags, append.
  destruct (gaps rows) as [|g gs].
  - cbn [bind Nat.leb]. now rewrite Z.add_0_r, app_nil_r.
  - destruct (bursts v (g :: gs)) as [b|e]; cbn [bind]; [|reflexivity].
    destruct (3 <=? b)%nat.
    + now rewrite add_points_small by lia.
    + now rewrite Z.add_0_r, app_nil_r.
Qed.

Lemma token_block_small rows addr a fl :
  0 <= a <= 80 ->
  token_block rows addr (float_of_Z a, fl)
  = (float_of_Z (a + token_points rows addr), (fl ++ token_flags rows addr)%list).
Proof.
  intros Ha. unfold token_block, token_points, token_flags, append.
  destruct (bad_tokens rows addr).
  - now rewrite Z.add_0_r, app_nil_r.
  - now rewrite add_points_small by lia.
Qed.

(** The last record is always recent with respect to itself, so the
    cold-wallet branch is never taken on a history that has a record. *)
Lemma last_time_snoc l x : last_time (l ++ [x])%list = tx_time x.
Proof. unfold last_time. now rewrite List.rev_unit. Qed.

Lemma recent_nonempty rows : rows <> [] -> recent rows <> [].
Proof.
  intros Hne.
  destruct (exists_last Hne) as (l & x & ->).
  unfold recent. rewrite last_time_snoc, List.filter_app. simpl.
  replace (tx_time x - tx_time x <? 30 * 24 * 3600) with true
    by (symmetry; apply Z.ltb_lt; lia).
  intros H. apply List.app_eq_nil in H as [_ H]. discriminate.
Qed.

Lemma cold_block_id rows st : rows <> [] -> cold_block rows st = st.
Proof.
  intros Hne. unfold cold_block. destruct st as [p fl].
  pose proof (recent_nonempty rows Hne) as H.
  destruct (recent rows); [contradiction | reflexivity].
Qed.

(** ** The counter of directed pairs *)

Lemma pair_eqb_eq (p q : pair) : pair_eqb p q = true <-> p = q.
Proof.
  destruct p as [a b], q as [a' b']. unfold pair_eqb. simpl.
  rewrite andb_true_iff, !String.eqb_eq.
  split; [intros [-> ->]; reflexivity | intros [= -> ->]; auto].
Qed.

Lemma pair_eqb_refl (p : pair) : pair_eqb p p = true.
Proof. now apply pair_eqb_eq. Qed.

Lemma pair_eqb_neq (p q : pair) : pair_eqb p q = false <-> p <> q.
Proof.
  rewrite <- pair_eqb_eq. destruct (pair_eqb p q); split; congruence.
Qed.

Lemma pair_eqb_sym (p q : pair) : pair_eqb p q = pair_eqb q p.
Proof.
  destruct (pair_eqb p q) eqn:E.
  - apply pair_eqb_eq in E as ->. symmetry. apply pair_eqb_refl.
  - symmetry. apply pair_eqb_neq. apply pair_eqb_neq in E. congruence.
Qed.

(** The occurrences of a key in a list of keys. *)
Lemma counter_get_incr k c k' :
  counter_get (counter_incr k c) k' 0
  = (counter_get c k' 0 + if pair_eqb k' k then 1 else 0)%nat.
Proof.
  induction c as [|[k0 n] c IH]; simpl.
  - reflexivity.
  - destruct (pair_eqb k k0) eqn:E; simpl.
    + apply pair_eqb_eq in E as ->.
      destruct (pair_eqb k' k0); lia.
    + destruct (pair_eqb k' k0) eqn:E'; [|exact IH].
      apply pair_eqb_eq in E' as ->.
      rewrite pair_eqb_sym, E. lia.
Qed.

Lemma counter_get_fold l c k :
  counter_get (fold_left (fun c k => counter_incr k c) l c) k 0
  = (counter_get c k 0 + length (List.filter (pair_eqb k) l))%nat.
Proof.
  revert c. induction l as [|k0 l IH]; intros c; simpl.
  - lia.
  - rewrite IH, counter_get_incr.
    destruct (pair_eqb k k0); simpl; lia.
Qed.

Lemma counter_get_Counter l k :
  counter_get (Counter l) k 0 = length (List.filter (pair_eqb k) l).
Proof. unfold Counter. now rewrite counter_get_fold. Qed.

Lemma transfers_filter rows a b :
  transfers rows a b
  = length (List.filter (pair_eqb (a, b)) (map (fun r => (tx_from r, tx_to r)) rows)).
Proof.
  unfold transfers. induction rows as [|r rows IH]; simpl; [reflexivity|].
  unfold pair_eqb at 1. simpl fst. simpl snd.
  rewrite (String.eqb_sym a), (String.eqb_sym b).
  destruct (_ && _); simpl; now rewrite IH.
Qed.

Lemma pair_counts_get rows a b :
  counter_get (pair_counts rows) (a, b) 0 = transfers rows a b.
Proof. unfold pair_counts. now rewrite counter_get_Counter, transfers_filter. Qed.

(** The keys of a counter are the first occurrences, in order. *)

Lemma keys_incr k c :
  map fst (counter_incr k c)
  = if fresh c k then (map fst c ++ [k])%list else map fst c.
Proof.
  unfold fresh. induction c as [|[k0 n] c IH]; simpl; [reflexivity|].
  destruct (pair_eqb k k0); simpl; [reflexivity|].
  rewrite IH. now destruct (existsb _ _).
Qed.

Lemma fresh_incr k c k' :
  fresh (counter_incr k c) k' = fresh c k' && negb (pair_eqb k' k).
Proof.
  unfold fresh. rewrite keys_incr. unfold fresh.
  destruct (existsb (pair_eqb k) (map fst c)) eqn:E; simpl.
  - destruct (pair_eqb k' k) eqn:E'; simpl; [|now rewrite andb_true_r].
    apply pair_eqb_eq in E' as ->. now rewrite E.
  - rewrite existsb_app. simpl. rewrite orb_false_r.
    now rewrite negb_orb.
Qed.

Lemma filter_fresh_incr k c xs :
  List.filter (fresh (counter_incr k c)) xs
  = List.filter (fresh c) (List.filter (fun k' => negb (pair_eqb k k')) xs).
Proof.
  induction xs as [|x xs IHx]; simpl; [reflexivity|].
  rewrite fresh_incr, (pair_eqb_sym x k).
  destruct (pair_eqb k x); simpl.
  - now rewrite andb_false_r.
  - rewrite andb_true_r. destruct (fresh c x); now rewrite IHx.
Qed.

Lemma keys_fold l c :
  map fst (fold_left (fun c k => counter_incr k c) l c)
  = (map fst c ++ List.filter (fresh c) (firsts l))%list.
Proof.
  revert c. induction l as [|k l IH]; intros c; simpl.
  - now rewrite app_nil_r.
  - rewrite IH, keys_incr, filter_fresh_incr.
    destruct (fresh c k); [|reflexivity].
    now rewrite <- app_assoc.
Qed.

Lemma keys_Counter l : map fst (Counter l) = firsts l.
Proof.
  unfold Counter. rewrite keys_fold. simpl.
  induction (firsts l) as [|x xs IH]; simpl; [reflexivity|]. now rewrite IH.
Qed.

Lemma firsts_NoDup l : List.NoDup (firsts l).
Proof.
  induction l as [|k l IH]; simpl; constructor.
  - intros H. apply List.filter_In in H as [_ H].
    now rewrite pair_eqb_refl in H.
  - now apply List.NoDup_filter.
Qed.

Lemma counter_get_entry c k n :
  List.NoDup (map fst c) -> In (k, n) c -> counter_get c k 0 = n.
Proof.
  induction c as [|[k0 n0] c IH]; simpl; [tauto|].
  intros Hnd [H|H].
  - injection H as -> ->. now rewrite pair_eqb_refl.
  - inversion Hnd as [|? ? Hnotin Hnd']; subst.
    destruct (pair_eqb k k0) eqn:E; [|now apply IH].
    apply pair_eqb_eq in E as ->. exfalso. apply Hnotin.
    change k0 with (fst (k0, n)). now apply in_map.
Qed.

Lemma find_firsts (q : pair -> bool) l : find q (firsts l) = find q l.
Proof.
  induction l as [|k l IH]; simpl; [reflexivity|].
  destruct (q k) eqn:E; [reflexivity|].
  rewrite <- IH. clear IH.
  induction (firsts l) as [|x xs IHx]; simpl; [reflexivity|].
  destruct (pair_eqb k x) eqn:E'; simpl.
  - apply pair_eqb_eq in E' as <-. now rewrite E.
  - now rewrite IHx.
Qed.

(** ** The wash loop stops at the first accepted pair *)

Lemma find_pointwise {A} (f g : A -> bool) l :
  (forall x, f x = g x) -> find f l = find g l.
Proof.
  intros H. induction l as [|x l IH]; simpl; [reflexivity|].
  now rewrite H, IH.
Qed.

Lemma wash_loop_find counts items addr st :
  (forall k n, In (k, n) items -> counter_get counts k 0 = n) ->
  wash_loop counts items addr st
  = match find (fun p =>
                  (String.eqb (fst p) addr || String.eqb (snd p) addr)
                  && (3 <=? counter_get counts p 0)%nat
                  && (3 <=? counter_get counts (snd p, fst p) 0)%nat)
               (map fst items) with
    | Some (a, b) => (add_points (fst st) 15, append (snd st) (wash_flag a b))
    | None => st
    end.
Proof.
  induction items as [|[[a b] c] items IH]; intros Hc;
    cbn [wash_loop find map fst snd]; [reflexivity|].
  rewrite (Hc (a, b) c) by (now left).
  rewrite IH by (intros k n Hin; apply Hc; now right).
  destruct (String.eqb a addr || String.eqb b addr); cbn [andb]; [|reflexivity].
  now destruct ((3 <=? c)%nat && (3 <=? counter_get counts (b, a) 0)%nat).
Qed.

Lemma wash_block_spec rows addr st :
  wash_block rows addr st
  = match first_wash_pair rows addr with
    | Some (a, b) => (add_points (fst st) 15, append (snd st) (wash_flag a b))
    | None => st
    end.
Proof.
  unfold wash_block, first_wash_pair.
  rewrite wash_loop_find.
  - unfold pair_counts at 3. rewrite keys_Counter, find_firsts.
    erewrite find_pointwise; [reflexivity|].
    intros [a b]. unfold wash_pair. simpl fst. simpl snd.
    now rewrite !pair_counts_get.
  - intros k n Hin. apply counter_get_entry; [|exact Hin].
    unfold pair_counts. rewrite keys_Counter. apply firsts_NoDup.
Qed.

Lemma wash_block_small rows addr a fl :
  0 <= a <= 80 ->
  wash_block rows addr (float_of_Z a, fl)
  = (float_of_Z (a + wash_points rows addr), (fl ++ wash_flags rows addr)%list).
Proof.
  intros Ha. rewrite wash_block_spec. unfold wash_points, wash_flags, append.
  destruct (first_wash_pair rows addr) as [[x y]|]; simpl fst; simpl snd.
  - now rewrite add_points_small by lia.
  - now rewrite Z.add_0_r, app_nil_r.
Qed.

(** ** The score is the sum of the contributions *)

Lemma heuristics_sum v rows addr :
  rows <> [] ->
  heuristics v rows addr
  = bind (burst_count v rows) (fun b =>
      Ok (float_of_Z (total_points rows addr b), all_flags rows addr b)).
Proof.
  intros Hne. unfold heuristics, total_points, all_flags.
  pose proof (mixer_points_range rows addr) as Hm.
  pose proof (approval_points_range (approvals rows addr)) as [Ha _].
  pose proof (token_points_range rows addr) as Ht.
  rewrite mixer_block_small by lia.
  rewrite approval_block_small by lia.
  rewrite burst_block_small by lia.
  destruct (burst_count v rows) as [b|e]; cbn [bind]; [|reflexivity].
  pose proof (burst_points_range b) as Hb.
  rewrite token_block_small by lia.
  rewrite wash_block_small by lia.
  rewrite cold_block_id by exact Hne.
  simpl app. rewrite Z.add_0_l. rewrite <- !app_assoc. reflexivity.
Qed.

Lemma score_sum v rows addr :
  rows <> [] ->
  score v rows addr
  = bind (burst_count v rows) (fun b =>
      Ok (float_of_Z (total_points rows (Str.lower addr) b),
          all_flags rows (Str.lower addr) b)).
Proof.
  intros Hne. unfold score. destruct rows as [|r rows]; [contradiction|].
  rewrite heuristics_sum by exact Hne.
  destruct (burst_count v (r :: rows)) as [b|e]; cbn [bind fst snd]; [|reflexivity].
  rewrite final_score_small; [reflexivity|].
  pose proof (total_points_range (r :: rows) (Str.lower addr) b). lia.
Qed.

(** ** The wallet scorer *)

(** What [score] returns on a history that has a record: the sum of the
    contributions, provided the burst heuristic returns. *)
Lemma score_returns v rows addr s fl :
  rows <> [] ->
  score v rows addr = Ok (s, fl) ->
  exists b,
    burst_count v rows = Ok b
    /\ s = float_of_Z (total_points rows (Str.lower addr) b)
    /\ fl = all_flags rows (Str.lower addr) b.
Proof.
  intros Hne H. rewrite score_sum in H by exact Hne.
  destruct (burst_count v rows) as [b|e]; cbn [bind] in H; [|discriminate].
  injection H as <- <-. now exists b.
Qed.

(** The cold-wallet flag is never part of a result. *)
Lemma score_never_cold v rows addr s fl :
  score v rows addr = Ok (s, fl) -> ~ In cold_flag fl.
Proof.
  intros H Hin. destruct rows as [|r rows].
  - injection H as <- <-. destruct Hin as [E|[]]. discriminate.
  - apply score_returns in H as (b & _ & _ & ->); [|discriminate].
    unfold all_flags, mixer_flags, approval_flags, burst_flags, token_flags,
      wash_flags, wash_flag, cold_flag in Hin.
    rewrite !in_app_iff in Hin.
    destruct (from_mixers _ _), (approvals _ _), (3 <=? b)%nat, (bad_tokens _ _),
      (first_wash_pair _ _) as [[x y]|];
      simpl in Hin; intuition discriminate.
Qed.

(** C1 (dormancy adjustment), evaluated on a dormant history: the latest
    record of [cold_history] comes 2,592,000 seconds after the two others,
    one of which is a transfer from a mixer, and yet [score] returns the
    full 35 points of the mixer heuristic and no cold-wallet flag, on
    either generation of the interpreter.  The filter that builds
    [recent] keeps the latest record itself (its distance to itself is 0),
    so [recent] is never empty: see [recent_nonempty] and
    [score_never_cold]. *)
Theorem dormant_history_not_flagged :
  Dormant cold_history
  /\ forall v, score v cold_history "0xABC"
               = Ok (float_of_Z 35, ["received from known mixer: 1 txs"]).
Proof.
  split.
  - exists [transfer "0x5ace..." "0xabc" "" "" 0; transfer "0xdef" "0x123" "" "" 0],
           (transfer "0xdef" "0x123" "" "" 2592000).
    split; [reflexivity|]. repeat constructor; simpl; lia.
  - intros []; vm_compute; reflexivity.
Qed.

(** C2 (burst heuristic totality) fails in two ways.  On the interpreters
    up to 3.12, [statistics.quantiles] refuses a single data point, and
    the guard [if gaps:] lets the single gap of a two-record history
    through: [score] raises [StatisticsError] on every history of two
    records.  On every interpreter, the interpolation divides an unbounded
    integer into a float: [score] raises [OverflowError] on
    [overflow_history]. *)
Theorem burst_heuristic_raises :
  (forall r1 r2 addr, score Py38_312 [r1; r2] addr = Raise StatisticsError)
  /\ (forall v addr, score v overflow_history addr = Raise OverflowError).
Proof.
  split.
  - intros r1 r2 addr. rewrite score_sum by discriminate. reflexivity.
  - intros v addr. rewrite score_sum by discriminate.
    assert (H : burst_count v overflow_history = Raise OverflowError)
      by (destruct v; vm_compute; reflexivity).
    now rewrite H.
Qed.

(** C5 (empty history): [score([], addr)] is [(10.0, ["no history"])]
    whatever the address and the interpreter; no heuristic is
    consulted. *)
Theorem empty_history v addr :
  score v [] addr = Ok (float_of_Z 10, ["no history"]).
Proof. reflexivity. Qed.

(** C6 (score range): whenever [score] returns, the score is within
    [0, 100], it is [round(max(0.0, min(100.0, points)), 2)] for the
    points the heuristics accumulated (10.0 standing for them on the empty
    history), and rounding it again to two decimals changes nothing. *)
Theorem score_in_range v rows addr s fl :
  score v rows addr = Ok (s, fl) ->
  fle (float_of_Z 0) s = true /\ fle s (float_of_Z 100) = true
  /\ round2 s = s
  /\ exists points,
       s = round2 (clamp points)
       /\ (rows <> [] -> heuristics v rows (Str.lower addr) = Ok (points, fl)).
Proof.
  intros H. destruct rows as [|r rows].
  - injection H as <- <-.
    destruct (final_small 10 ltac:(lia)) as (_ & Hc & Hr & H0 & H100).
    repeat split; try assumption.
    exists (float_of_Z 10). rewrite Hc, Hr. split; [reflexivity | congruence].
  - pose proof H as H'.
    apply score_returns in H' as (b & Hb & -> & ->); [|discriminate].
    pose proof (total_points_range (r :: rows) (Str.lower addr) b) as [Hr _].
    destruct (final_small (total_points (r :: rows) (Str.lower addr) b) ltac:(lia))
      as (_ & Hc & Hrd & H0 & H100).
    repeat split; try assumption.
    exists (float_of_Z (total_points (r :: rows) (Str.lower addr) b)).
    rewrite Hc, Hrd. split; [reflexivity|]. intros _.
    rewrite heuristics_sum by discriminate. now rewrite Hb.
Qed.

Lemma score_in_range_witness :
  score Py313 permit_history "0xABC"
  = Ok (float_of_Z 25, ["sensitive approvals: 6"])
  /\ fle (float_of_Z 0) (float_of_Z 25) = true
  /\ fle (float_of_Z 25) (float_of_Z 100) = true.
Proof.
  assert (H : score Py313 permit_history "0xABC"
              = Ok (float_of_Z 25, ["sensitive approvals: 6"]))
    by (vm_compute; reflexivity).
  split; [exact H|].
  destruct (score_in_range Py313 permit_history "0xABC" _ _ H) as (H0 & H100 & _).
  split; assumption.
Defined.

(** The bound 95 is attained. *)
Lemma score_95_attained v :
  score v full_history "0xABC"
  = Ok (float_of_Z 95,
        [ "received from known mixer: 1 txs"; "sensitive approvals: 5";
          "bot-like bursts: 8"; "received suspicious tokens: 3";
          "wash-like transfers between 0xabc and 0x123" ]).
Proof. destruct v; vm_compute; reflexivity. Qed.

(** C10 (multiples of five): whenever [score] returns, the score is
    [5 * k] for some [0 <= k <= 19]; the upper clamp is not attained
    ([min(100.0, s)] is [s], which is below 100), and on a history with a
    record the score is the accumulated points themselves: clamping and
    rounding changed nothing. *)
Theorem score_multiple_of_five v rows addr s fl :
  score v rows addr = Ok (s, fl) ->
  (exists k, 0 <= k <= 19 /\ s = float_of_Z (5 * k))
  /\ flt s (float_of_Z 100) = true
  /\ fmin (float_of_Z 100) s = s
  /\ (rows <> [] -> heuristics v rows (Str.lower addr) = Ok (s, fl)).
Proof.
  intros H.
  assert (Hk : forall a, 0 <= a <= 95 -> (5 | a) ->
                 (exists k, 0 <= k <= 19 /\ float_of_Z a = float_of_Z (5 * k))).
  { intros a Ha [k Hk]. exists k. split; [lia | f_equal; lia]. }
  assert (Hlt : forall a, 0 <= a <= 95 -> flt (float_of_Z a) (float_of_Z 100) = true).
  { intros a Ha.
    assert (Hall : forallb (fun a => flt (float_of_Z a) (float_of_Z 100)) (upto 95) = true)
      by (vm_compute; reflexivity).
    rewrite forallb_forall in Hall. apply Hall, in_upto. lia. }
  destruct rows as [|r rows].
  - injection H as <- <-.
    destruct (final_small 10 ltac:(lia)) as (Hm & _).
    repeat split; try assumption.
    + exists 2. split; [lia | reflexivity].
    + congruence.
  - pose proof H as H'.
    apply score_returns in H' as (b & Hb & -> & ->); [|discriminate].
    pose proof (total_points_range (r :: rows) (Str.lower addr) b) as [Hr Hd].
    destruct (final_small (total_points (r :: rows) (Str.lower addr) b) ltac:(lia))
      as (Hm & _).
    repeat split.
    + now apply Hk.
    + now apply Hlt.
    + exact Hm.
    + intros _. rewrite heuristics_sum by discriminate. now rewrite Hb.
Qed.

Lemma score_multiple_of_five_witness :
  score Py38_312 cold_history "0xABC"
  = Ok (float_of_Z 35, ["received from known mixer: 1 txs"])
  /\ exists k, 0 <= k <= 19 /\ float_of_Z 35 = float_of_Z (5 * k).
Proof.
  assert (H : score Py38_312 cold_history "0xABC"
              = Ok (float_of_Z 35, ["received from known mixer: 1 txs"]))
    by (vm_compute; reflexivity).
  split; [exact H|].
  exact (proj1 (score_multiple_of_five Py38_312 cold_history "0xABC" _ _ H)).
Defined.

(** ** Substrings and counting *)

Lemma append_cons (c : ascii) (s t : string) :
  (String c s ++ t)%string = String c (s ++ t)%string.
Proof. reflexivity. Qed.

Lemma prefix_spec (s t : string) :
  String.prefix s t = true <-> exists post, t = (s ++ post)%string.
Proof.
  revert t. induction s as [|a s IH]; intros t; simpl.
  - split; [intros _; now exists t | intros _; now destruct t].
  - destruct t as [|b t]; simpl.
    + split; [discriminate | intros [post H]; discriminate].
    + destruct (ascii_dec a b) as [->|Hab].
      * rewrite IH.
        split; intros [post H]; exists post; rewrite append_cons in *; congruence.
      * split; [discriminate | intros [post H]; rewrite append_cons in H; congruence].
Qed.

Lemma contains_step (s : string) (c : ascii) (t : string) :
  Str.contains s (String c t)
  = if String.prefix s (String c t) then true else Str.contains s t.
Proof. reflexivity. Qed.

Lemma contains_prefix (s t : string) :
  String.prefix s t = true -> Str.contains s t = true.
Proof.
  intros E.
  destruct t;
    [change (Str.contains s "") with (if String.prefix s "" then true else false)
    | rewrite contains_step];
    now rewrite E.
Qed.

Lemma contains_spec (s t : string) :
  Str.contains s t = true <-> Substring s t.
Proof.
  split.
  - induction t as [|c t IH].
    + intros H.
      assert (E : String.prefix s "" = true) by (destruct s; [reflexivity | discriminate]).
      apply prefix_spec in E as [post E]. now exists EmptyString, post.
    + rewrite contains_step. destruct (String.prefix s (String c t)) eqn:E.
      * intros _. apply prefix_spec in E as [post E]. now exists EmptyString, post.
      * intros H. destruct (IH H) as (pre & post & ->).
        now exists (String c pre), post.
  - intros (pre & post & ->). induction pre as [|c pre IH].
    + apply contains_prefix, prefix_spec. now exists post.
    + change (String c pre ++ s ++ post)%string
        with (String c (pre ++ s ++ post)%string).
      rewrite contains_step, IH. now destruct (String.prefix _ _).
Qed.

Lemma count_filter {A} (P : A -> Prop) (f : A -> bool) (l : list A) :
  (forall x, f x = true <-> P x) -> Count P l (length (List.filter f l)).
Proof.
  intros Hf. induction l as [|x l IH]; simpl; [constructor|].
  destruct (f x) eqn:E; simpl.
  - apply Count_hit; [now apply Hf | exact IH].
  - apply Count_miss; [|exact IH]. intros HP. apply Hf in HP. congruence.
Qed.

Lemma Count_functional {A} (P : A -> Prop) (l : list A) n m :
  Count P l n -> Count P l m -> n = m.
Proof.
  intros Hn. revert m. induction Hn; intros m Hm; inversion Hm; subst;
    try reflexivity; try contradiction; auto.
Qed.

Lemma is_approval_spec addr r : is_approval addr r = true <-> Approval addr r.
Proof.
  unfold is_approval, Approval.
  rewrite andb_true_iff, String.eqb_eq, existsb_exists.
  split; intros [Hf [m [Hm Hs]]]; (split; [exact Hf|]); exists m;
    (split; [exact Hm|]); now apply contains_spec.
Qed.

Lemma approvals_count rows addr :
  Count (Approval addr) rows (approvals rows addr).
Proof. apply count_filter. intros r. apply is_approval_spec. Qed.

(** C7 (approval heuristic): on a history with a record, let [n] be
    the number of records sent by the lower-cased target whose method
    contains a sensitive name.  When [score] returns, the score is the
    contributions of the other heuristics plus [min(25, n * 5)] if [n > 0]
    and plus nothing otherwise; the flag ["sensitive approvals: n"] is
    present exactly when [n > 0]; from five such records on the
    contribution is 25, so six of them give 25 and not 30. *)
Theorem approval_heuristic_capped v rows addr s fl n :
  rows <> [] ->
  Count (Approval (Str.lower addr)) rows n ->
  score v rows addr = Ok (s, fl) ->
  exists b others,
    burst_count v rows = Ok b
    /\ others = mixer_points rows (Str.lower addr) + burst_points b
                + token_points rows (Str.lower addr)
                + wash_points rows (Str.lower addr)
    /\ s = float_of_Z (others + if (0 <? n)%nat then Z.min 25 (Z.of_nat n * 5) else 0)
    /\ ((0 < n)%nat -> In ("sensitive approvals: " ++ Str.of_nat n)%string fl)
    /\ (n = 0%nat -> forall f, In f fl -> String.prefix "sensitive approvals" f = false)
    /\ ((5 <= n)%nat -> s = float_of_Z (others + 25)).
Proof.
  intros Hne Hn H.
  apply score_returns in H as (b & Hb & -> & ->); [|exact Hne].
  assert (En : approvals rows (Str.lower addr) = n)
    by (eapply Count_functional; [apply approvals_count | exact Hn]).
  exists b, (mixer_points rows (Str.lower addr) + burst_points b
             + token_points rows (Str.lower addr) + wash_points rows (Str.lower addr)).
  unfold total_points, all_flags. rewrite En.
  split; [exact Hb|]. split; [reflexivity|].
  split; [|split; [|split]].
  - f_equal. destruct n as [|n'].
    + change (0 <? 0)%nat with false. cbv iota. simpl approval_points. lia.
    + change (0 <? S n')%nat with true. cbv iota. simpl approval_points. lia.
  - intros Hpos. rewrite !in_app_iff. right. left.
    destruct n; [lia|]. now left.
  - intros -> f. unfold mixer_flags, burst_flags, token_flags, wash_flags, wash_flag.
    rewrite !in_app_iff.
    destruct (from_mixers _ _), (3 <=? b)%nat, (bad_tokens _ _),
      (first_wash_pair _ _) as [[x y]|];
      simpl; intuition (subst; reflexivity).
  - intros Hn5. f_equal. destruct n; [lia|]. simpl approval_points. lia.
Qed.

Lemma approval_heuristic_capped_witness :
  permit_history <> []
  /\ Count (Approval (Str.lower "0xABC")) permit_history 6
  /\ score Py38_312 permit_history "0xABC"
     = Ok (float_of_Z 25, ["sensitive approvals: 6"])
  /\ exists others, float_of_Z 25 = float_of_Z (others + 25).
Proof.
  assert (Hne : permit_history <> []) by discriminate.
  assert (Hn : Count (Approval (Str.lower "0xABC")) permit_history 6)
    by exact (approvals_count permit_history (Str.lower "0xABC")).
  assert (H : score Py38_312 permit_history "0xABC"
              = Ok (float_of_Z 25, ["sensitive approvals: 6"]))
    by (vm_compute; reflexivity).
  repeat split; try assumption.
  destruct (approval_heuristic_capped Py38_312 permit_history "0xABC" _ _ 6 Hne Hn H)
    as (b & others & _ & _ & _ & _ & _ & H25).
  exists others. apply H25. lia.
Defined.

(** ** One wash flag, for the first accepted pair *)

Lemma wash_pair_spec rows addr a b :
  wash_pair rows addr (a, b) = true <-> WashPair rows addr a b.
Proof.
  unfold wash_pair, WashPair. simpl fst. simpl snd.
  rewrite !andb_true_iff, orb_true_iff, !String.eqb_eq, !Nat.leb_le.
  tauto.
Qed.

Lemma find_first {A} (f : A -> bool) (l : list A) (x : A) :
  find f l = Some x ->
  exists pre post,
    l = (pre ++ x :: post)%list /\ f x = true
    /\ forall y, In y pre -> f y = false.
Proof.
  induction l as [|y l IH]; simpl; [discriminate|].
  destruct (f y) eqn:E.
  - intros [= ->]. exists [], l. repeat split; [exact E | intros ? []].
  - intros H. destruct (IH H) as (pre & post & -> & Hx & Hpre).
    exists (y :: pre), post. repeat split; [exact Hx|].
    intros z [<-|Hz]; [exact E | now apply Hpre].
Qed.

Lemma find_present {A} (f : A -> bool) (l : list A) (x : A) :
  In x l -> f x = true -> exists y, find f l = Some y.
Proof.
  intros Hin Hx. destruct (find f l) as [y|] eqn:E; [now exists y|].
  pose proof (List.find_none f l E x Hin). congruence.
Qed.

Lemma transfers_present rows a b :
  (0 < transfers rows a b)%nat ->
  In (a, b) (map (fun r => (tx_from r, tx_to r)) rows).
Proof.
  unfold transfers. intros H.
  destruct (List.filter _ rows) as [|r l] eqn:E; [simpl in H; lia|].
  assert (Hr : In r (List.filter
                 (fun r => String.eqb (tx_from r) a && String.eqb (tx_to r) b) rows))
    by (rewrite E; now left).
  apply List.filter_In in Hr as [Hr Hab].
  apply andb_prop in Hab as [Ha Hb].
  apply String.eqb_eq in Ha, Hb. subst.
  now apply (in_map (fun r => (tx_from r, tx_to r))).
Qed.

Lemma first_wash_pair_exists rows addr a b :
  WashPair rows addr a b -> exists p, first_wash_pair rows addr = Some p.
Proof.
  intros H. unfold first_wash_pair.
  apply find_present with (x := (a, b)).
  - apply transfers_present. destruct H as (_ & H & _). lia.
  - now apply wash_pair_spec.
Qed.

Lemma is_wash_flag_wash a b : is_wash_flag (wash_flag a b) = true.
Proof.
  unfold is_wash_flag, wash_flag. apply prefix_spec.
  now exists (a ++ " and " ++ b)%string.
Qed.

Lemma wash_flags_only rows addr b :
  List.filter is_wash_flag (all_flags rows addr b) = wash_flags rows addr.
Proof.
  unfold all_flags. rewrite !List.filter_app.
  assert (Hm : List.filter is_wash_flag (mixer_flags rows addr) = [])
    by (unfold mixer_flags; now destruct (from_mixers _ _)).
  assert (Ha : List.filter is_wash_flag (approval_flags (approvals rows addr)) = [])
    by (unfold approval_flags; now destruct (approvals _ _)).
  assert (Hb : List.filter is_wash_flag (burst_flags b) = [])
    by (unfold burst_flags; now destruct (3 <=? b)%nat).
  assert (Ht : List.filter is_wash_flag (token_flags rows addr) = [])
    by (unfold token_flags; now destruct (bad_tokens _ _)).
  rewrite Hm, Ha, Hb, Ht. simpl app.
  unfold wash_flags. destruct (first_wash_pair rows addr) as [[x y]|]; [|reflexivity].
  simpl. now rewrite is_wash_flag_wash.
Qed.

(** C8 (wash heuristic): when some directed pair that involves the
    lower-cased target has at least three transfers each way and [score]
    returns, the score is the contributions of the other heuristics plus
    15, once, and exactly one flag of the result is a wash flag.  It
    names the pair [(a', b')] of the first record of the history whose
    pair is accepted: no earlier record carries an accepted pair, whatever
    the number of accepted pairs. *)
Theorem wash_heuristic_fires_once v rows addr s fl a b :
  WashPair rows (Str.lower addr) a b ->
  score v rows addr = Ok (s, fl) ->
  exists a' b' n others pre r post,
    rows = (pre ++ r :: post)%list
    /\ tx_from r = a' /\ tx_to r = b'
    /\ WashPair rows (Str.lower addr) a' b'
    /\ (forall r', In r' pre ->
          ~ WashPair rows (Str.lower addr) (tx_from r') (tx_to r'))
    /\ List.filter is_wash_flag fl = [wash_flag a' b']
    /\ burst_count v rows = Ok n
    /\ others = mixer_points rows (Str.lower addr)
                + approval_points (approvals rows (Str.lower addr))
                + burst_points n + token_points rows (Str.lower addr)
    /\ s = float_of_Z (others + 15).
Proof.
  intros Hw H.
  assert (Hne : rows <> []).
  { intros ->. destruct Hw as (_ & Hw & _). unfold transfers in Hw. simpl in Hw. lia. }
  apply score_returns in H as (n & Hn & -> & ->); [|exact Hne].
  destruct (first_wash_pair_exists _ _ _ _ Hw) as [[a' b'] Hp].
  pose proof Hp as Hfind. unfold first_wash_pair in Hfind.
  apply find_first in Hfind as (pre & post & Hsplit & Hacc & Hpre).
  apply List.map_eq_app in Hsplit as (rpre & rrest & Hrows & Hpre_eq & Hrest).
  destruct rrest as [|r rpost]; [discriminate|].
  injection Hrest as Hr Hpost.
  exists a', b', n, (mixer_points rows (Str.lower addr)
                     + approval_points (approvals rows (Str.lower addr))
                     + burst_points n + token_points rows (Str.lower addr)),
    rpre, r, rpost.
  split; [exact Hrows|].
  split; [congruence|]. split; [congruence|].
  split; [now apply wash_pair_spec|].
  split.
  { intros r' Hin Hacc'. apply wash_pair_spec in Hacc'.
    rewrite Hpre with (y := (tx_from r', tx_to r')) in Hacc'; [discriminate|].
    rewrite <- Hpre_eq. now apply (in_map (fun r => (tx_from r, tx_to r))). }
  split.
  { rewrite wash_flags_only. unfold wash_flags. now rewrite Hp. }
  split; [exact Hn|]. split; [reflexivity|].
  unfold total_points, wash_points. now rewrite Hp.
Qed.

Lemma wash_heuristic_fires_once_witness :
  WashPair wash_history (Str.lower "0xABC") "0x222" "0xabc"
  /\ score Py313 wash_history "0xABC"
     = Ok (float_of_Z 15, ["wash-like transfers between 0xabc and 0x111"])
  /\ exists a' b',
       List.filter is_wash_flag ["wash-like transfers between 0xabc and 0x111"]
       = [wash_flag a' b'].
Proof.
  assert (Hw : WashPair wash_history (Str.lower "0xABC") "0x222" "0xabc")
    by (split; [right; reflexivity | split; vm_compute; lia]).
  assert (H : score Py313 wash_history "0xABC"
              = Ok (float_of_Z 15, ["wash-like transfers between 0xabc and 0x111"]))
    by (vm_compute; reflexivity).
  split; [exact Hw|]. split; [exact H|].
  destruct (wash_heuristic_fires_once Py313 wash_history "0xABC" _ _ _ _ Hw H)
    as (a' & b' & n & others & pre & r & post & _ & _ & _ & _ & _ & Hf & _).
  now exists a', b'.
Defined.

(** ** The normalizer *)

(** C3 (normalizer totality), evaluated on a record whose amount is not
    a number: [float("abc")] raises [ValueError] and nothing catches it,
    so [normalize] raises instead of substituting 0.0.  The time stamp
    of the same record goes through [to_int], which swallows the same
    failure and yields the default 0. *)
Theorem normalize_raises_on_malformed_amount addr :
  normalize [malformed_amount] addr = Raise ValueError
  /\ to_int (get malformed_amount "timeStamp") 0 = 0.
Proof. split; vm_compute; reflexivity. Qed.

Lemma selected_or_chain r default aliases :
  Selected r default aliases (or_chain r aliases default).
Proof.
  induction aliases as [|k ks IH]; simpl; [constructor|].
  unfold py_or, get.
  destruct (r !! k) as [v|] eqn:E.
  - destruct (truthy v) eqn:Ev.
    + now apply Selected_here.
    + apply Selected_later; [|exact IH]. right. now exists v.
  - simpl. apply Selected_later; [|exact IH]. now left.
Qed.

Lemma Selected_functional r default aliases v v' :
  Selected r default aliases v -> Selected r default aliases v' -> v = v'.
Proof.
  intros H. revert v'.
  induction H as [|k ks v Hk Hv|k ks v Hk H IH]; intros v' H'; inversion H'; subst.
  - reflexivity.
  - congruence.
  - match goal with Hs : Skipped _ _ |- _ => destruct Hs as [Hs|(u & Hs & Hu)] end;
      congruence.
  - destruct Hk as [Hk|(u & Hk & Hu)]; congruence.
  - now apply IH.
Qed.

(** C4, the reading by presence, refuted: in [falsy_first_aliases] the
    keys [from] and [value] are present and hold an empty string and 0,
    and [normalize] takes the sender from [src] and the amount from
    [amount]. *)
Lemma first_present_alias_not_selected :
  normalize_row falsy_first_aliases = Ok falsy_first_aliases_tx
  /\ ~ SelectsFirstPresent falsy_first_aliases.
Proof.
  assert (E : normalize_row falsy_first_aliases = Ok falsy_first_aliases_tx)
    by (vm_compute; reflexivity).
  split; [exact E|].
  intros H. destruct (H _ E) as [Hf _].
  vm_compute in Hf. discriminate.
Qed.

(** C4 as amended (alias selection): for every raw record that
    [normalize] accepts, each canonical field is built from the value of
    the first alias, in the listed order, that is present and true in a
    condition (not [None], [False], 0, 0.0, an empty string or an empty
    container), and from the default (the empty string, or 0) when there
    is none; an alias that is present but empty or zero is passed over in
    favour of the next one. *)
Theorem normalize_selects_first_true_alias r n :
  normalize_row r = Ok n ->
  exists vf vt vm vk vv fv vts,
    Selected r (PStr "") ["hash"; "txHash"] (tx_hash n)
    /\ Selected r (PStr "") ["from"; "src"] vf /\ py_lower vf = Ok (tx_from n)
    /\ Selected r (PStr "") ["to"; "dst"] vt /\ py_lower vt = Ok (tx_to n)
    /\ Selected r (PStr "") ["method"; "functionName"] vm
    /\ py_lower vm = Ok (tx_method n)
    /\ Selected r (PStr "") ["tokenSymbol"; "symbol"] vk
    /\ py_upper vk = Ok (tx_token n)
    /\ Selected r (PInt 0) ["value"; "amount"] vv /\ py_float vv = Ok fv
    /\ tx_value n = (if float_truthy fv then fv else float_of_Z 0)
    /\ Selected r (PInt 0) ["timeStamp"; "timestamp"; "time"] vts
    /\ tx_time n = to_int vts 0.
Proof.
  unfold normalize_row. intros H.
  change (py_or (get r "hash") (py_or (get r "txHash") (PStr "")))
    with (or_chain r ["hash"; "txHash"] (PStr "")) in H.
  change (py_or (get r "from") (py_or (get r "src") (PStr "")))
    with (or_chain r ["from"; "src"] (PStr "")) in H.
  change (py_or (get r "to") (py_or (get r "dst") (PStr "")))
    with (or_chain r ["to"; "dst"] (PStr "")) in H.
  change (py_or (get r "method") (py_or (get r "functionName") (PStr "")))
    with (or_chain r ["method"; "functionName"] (PStr "")) in H.
  change (py_or (get r "tokenSymbol") (py_or (get r "symbol") (PStr "")))
    with (or_chain r ["tokenSymbol"; "symbol"] (PStr "")) in H.
  change (py_or (get r "value") (py_or (get r "amount") (PInt 0)))
    with (or_chain r ["value"; "amount"] (PInt 0)) in H.
  change (py_or (get r "timeStamp")
            (py_or (get r "timestamp") (py_or (get r "time") (PInt 0))))
    with (or_chain r ["timeStamp"; "timestamp"; "time"] (PInt 0)) in H.
  destruct (py_lower (or_chain r ["from"; "src"] (PStr ""))) as [f|] eqn:Ef;
    cbn [bind] in H; [|discriminate].
  destruct (py_lower (or_chain r ["to"; "dst"] (PStr ""))) as [t|] eqn:Et;
    cbn [bind] in H; [|discriminate].
  destruct (py_lower (or_chain r ["method"; "functionName"] (PStr ""))) as [m|] eqn:Em;
    cbn [bind] in H; [|discriminate].
  destruct (py_upper (or_chain r ["tokenSymbol"; "symbol"] (PStr ""))) as [k|] eqn:Ek;
    cbn [bind] in H; [|discriminate].
  destruct (py_float (or_chain r ["value"; "amount"] (PInt 0))) as [fv|] eqn:Ev;
    cbn [bind] in H; [|discriminate].
  injection H as <-. cbn [tx_hash tx_from tx_to tx_method tx_token tx_value tx_time].
  exists (or_chain r ["from"; "src"] (PStr "")),
         (or_chain r ["to"; "dst"] (PStr "")),
         (or_chain r ["method"; "functionName"] (PStr "")),
         (or_chain r ["tokenSymbol"; "symbol"] (PStr "")),
         (or_chain r ["value"; "amount"] (PInt 0)), fv,
         (or_chain r ["timeStamp"; "timestamp"; "time"] (PInt 0)).
  repeat split; try apply selected_or_chain; assumption.
Qed.

Lemma normalize_selects_first_true_alias_witness :
  normalize_row falsy_first_aliases = Ok falsy_first_aliases_tx
  /\ exists vf,
       Selected falsy_first_aliases (PStr "") ["from"; "src"] vf
       /\ py_lower vf = Ok "0xabc".
Proof.
  assert (E : normalize_row falsy_first_aliases = Ok falsy_first_aliases_tx)
    by (vm_compute; reflexivity).
  split; [exact E|].
  destruct (normalize_selects_first_true_alias _ _ E)
    as (vf & vt & vm & vk & vv & fv & vts & _ & Hs & Hl & _).
  exists vf. split; [exact Hs | exact Hl].
Defined.

(** ** The source scanner *)

Lemma analyze_with_matched rules code st :
  fold_left (apply_rule code) rules st
  = mk_report (risk st + sumZ (map weight (matched rules code)))
              (reasons st ++ map desc (matched rules code))%list.
Proof.
  revert st. induction rules as [|r rules IH]; intros st; simpl.
  - rewrite Z.add_0_r, app_nil_r. now destruct st.
  - rewrite IH. unfold apply_rule.
    destruct (search (regex r) code); simpl.
    + rewrite <- app_assoc. f_equal. lia.
    + reflexivity.
Qed.

Lemma char_matches_literal (p c : ascii) :
  Ascii.eqb p "." = false ->
  char_matches p c = Ascii.eqb (Str.lower_char p) (Str.lower_char c).
Proof. unfold char_matches. now intros ->. Qed.

Lemma match_here_prefix (pattern s : string) :
  literal pattern = true ->
  match_here pattern s = String.prefix (Str.lower pattern) (Str.lower s).
Proof.
  revert s. induction pattern as [|p pattern IH]; intros s Hl; simpl.
  - now destruct s.
  - simpl in Hl. apply andb_prop in Hl as [Hp Hl].
    apply negb_true_iff in Hp.
    destruct s as [|c s]; simpl; [reflexivity|].
    rewrite char_matches_literal by exact Hp.
    destruct (ascii_dec (Str.lower_char p) (Str.lower_char c)) as [E|E].
    + rewrite E, Ascii.eqb_refl. simpl. now apply IH.
    + apply Ascii.eqb_neq in E. now rewrite E.
Qed.

Lemma search_contains (pattern s : string) :
  literal pattern = true ->
  search pattern s = Str.contains (Str.lower pattern) (Str.lower s).
Proof.
  intros Hl. induction s as [|c s IH].
  - simpl. now rewrite match_here_prefix by exact Hl.
  - change (Str.lower (String c s)) with (String (Str.lower_char c) (Str.lower s)).
    rewrite contains_step.
    change (String (Str.lower_char c) (Str.lower s)) with (Str.lower (String c s)).
    rewrite <- match_here_prefix by exact Hl.
    simpl. now rewrite IH.
Qed.

Lemma search_icontains (pattern s : string) :
  literal pattern = true ->
  IContains pattern s -> search pattern s = true.
Proof.
  intros Hl H. rewrite search_contains by exact Hl.
  now apply contains_spec.
Qed.

Lemma matched_none rules code :
  (forall r, In r rules -> search (regex r) code = false) ->
  matched rules code = [].
Proof.
  induction rules as [|r rules IH]; intros H; simpl; [reflexivity|].
  rewrite (H r) by (now left). apply IH. intros r' Hr'. apply H. now right.
Qed.

(** C9 (source scanner): [analyze] returns the sum of the weights of
    the rules whose pattern is found, letter case ignored, and their
    descriptions in the order of declaration.  A text that contains
    ["selfdestruct"] and ["DELEGATECALL"] in any letter case triggers
    those two rules: the risk is 40 + 25 = 65 and the reasons are their
    two descriptions in that order (with the reentrancy rule in front,
    and 30 more, when its pattern is found too).  A text that triggers no
    rule gets risk 0 and no reason. *)
Theorem analyze_sums_matched_rules code :
  analyze code = mk_report (sumZ (map weight (matched RULES code)))
                           (map desc (matched RULES code))
  /\ (IContains "selfdestruct" code -> IContains "DELEGATECALL" code ->
      analyze code
      = if search "call.value" code
        then mk_report 95 ["Potential reentrancy (call.value)";
                           "Contract selfdestruct"; "Delegatecall detected"]
        else mk_report 65 ["Contract selfdestruct"; "Delegatecall detected"])
  /\ ((forall r, In r RULES -> search (regex r) code = false) ->
      analyze code = mk_report 0 []).
Proof.
  assert (Hsum : analyze code
                 = mk_report (sumZ (map weight (matched RULES code)))
                             (map desc (matched RULES code))).
  { unfold analyze, analyze_with. now rewrite analyze_with_matched. }
  split; [exact Hsum|]. split.
  - intros Hs Hd. rewrite Hsum.
    assert (Es : search "selfdestruct" code = true)
      by (apply search_icontains; [reflexivity | exact Hs]).
    assert (Ed : search "delegatecall" code = true).
    { apply search_icontains; [reflexivity|].
      unfold IContains in *. exact Hd. }
    unfold matched, RULES. cbn [List.filter regex].
    rewrite Es, Ed. now destruct (search "call.value" code).
  - intros Hnone. rewrite Hsum, (matched_none RULES code Hnone). reflexivity.
Qed.

Lemma analyze_sums_matched_rules_witness :
  IContains "selfdestruct" sample_code
  /\ IContains "DELEGATECALL" sample_code
  /\ analyze sample_code
     = mk_report 65 ["Contract selfdestruct"; "Delegatecall detected"].
Proof.
  assert (Hs : IContains "selfdestruct" sample_code)
    by (apply contains_spec; vm_compute; reflexivity).
  assert (Hd : IContains "DELEGATECALL" sample_code)
    by (apply contains_spec; vm_compute; reflexivity).
  split; [exact Hs|]. split; [exact Hd|].
  exact (proj1 (proj2 (analyze_sums_matched_rules sample_code)) Hs Hd).
Defined.

(** * Further properties *)

(** ** The normalizer keeps, orders and aborts *)

Lemma mapM_Ok {A B} (f : A -> result B) (l : list A) (ys : list B) :
  mapM f l = Ok ys <-> Forall2 (fun x y => f x = Ok y) l ys.
Proof.
  revert ys. induction l as [|x l IH]; intros ys; simpl.
  - split.
    + intros [= <-]. constructor.
    + intros H. inversion H. reflexivity.
  - split.
    + destruct (f x) as [y|e] eqn:Ex; cbn [bind]; [|discriminate].
      destruct (mapM f l) as [ys'|e] eqn:El; cbn [bind]; [|discriminate].
      intros [= <-]. constructor; [exact Ex | now apply IH].
    + intros H. inversion H as [|? y ? ys' Hx Hl]; subst.
      rewrite Hx. cbn [bind]. apply IH in Hl. now rewrite Hl.
Qed.

Lemma mapM_Raise {A B} (f : A -> result B) (l : list A) (e : exn) :
  mapM f l = Raise e <->
  exists pre x post,
    l = (pre ++ x :: post)%list
    /\ Forall (fun y => exists z, f y = Ok z) pre
    /\ f x = Raise e.
Proof.
  split.
  - induction l as [|x l IH]; simpl; [discriminate|].
    destruct (f x) as [y|e'] eqn:Ex; cbn [bind].
    + destruct (mapM f l) as [ys|e'] eqn:El; cbn [bind]; [discriminate|].
      intros [= ->]. destruct (IH eq_refl) as (pre & z & post & -> & Hpre & Hz).
      exists (x :: pre), z, post. repeat split; [|exact Hz].
      constructor; [now exists y | exact Hpre].
    + intros [= ->]. exists [], x, l. repeat split; [constructor | exact Ex].
  - intros (pre & x & post & -> & Hpre & Hx).
    induction Hpre as [|p pre [w Hw] _ IH]; simpl.
    + now rewrite Hx.
    + rewrite Hw. cbn [bind]. now rewrite IH.
Qed.

Lemma insert_by_time_perm x l : Permutation (x :: l) (insert_by_time x l).
Proof.
  induction l as [|y l IH]; simpl; [reflexivity|].
  destruct (tx_time x <=? tx_time y); [reflexivity|].
  rewrite perm_swap. now apply perm_skip.
Qed.

Lemma sort_by_time_perm l : Permutation l (sort_by_time l).
Proof.
  induction l as [|x l IH]; simpl; [constructor|].
  rewrite <- insert_by_time_perm. now apply perm_skip.
Qed.

Lemma insert_by_time_sorted x l :
  StronglySorted le_time l -> StronglySorted le_time (insert_by_time x l).
Proof.
  induction l as [|y l IH]; intros Hs; simpl.
  - repeat constructor.
  - inversion Hs as [|? ? Hl Hy]; subst.
    destruct (tx_time x <=? tx_time y) eqn:E.
    + apply Z.leb_le in E. constructor; [exact Hs|].
      constructor; [exact E|].
      eapply List.Forall_impl; [|exact Hy]. unfold le_time. intros; lia.
    + apply Z.leb_gt in E. constructor; [now apply IH|].
      eapply Permutation_Forall; [apply insert_by_time_perm|].
      constructor; [unfold le_time; lia | exact Hy].
Qed.

Lemma sort_by_time_sorted l : StronglySorted le_time (sort_by_time l).
Proof.
  induction l as [|x l IH]; simpl; [constructor|]. now apply insert_by_time_sorted.
Qed.

Lemma insert_by_time_stable t x l :
  List.filter (at_time t) (insert_by_time x l)
  = List.filter (at_time t) (x :: l).
Proof.
  induction l as [|y l IH]; [reflexivity|].
  cbn [insert_by_time]. destruct (tx_time x <=? tx_time y) eqn:E; [reflexivity|].
  apply Z.leb_gt in E. cbn [List.filter] in *. rewrite IH.
  unfold at_time.
  destruct (tx_time x =? t) eqn:Ex; [|reflexivity].
  apply Z.eqb_eq in Ex.
  replace (tx_time y =? t) with false; [reflexivity|].
  symmetry. apply Z.eqb_neq. lia.
Qed.

Lemma sort_by_time_stable t l :
  List.filter (at_time t) (sort_by_time l) = List.filter (at_time t) l.
Proof.
  induction l as [|x l IH]; [reflexivity|].
  cbn [sort_by_time]. rewrite insert_by_time_stable.
  cbn [List.filter]. now rewrite IH.
Qed.

(** X1 (no record dropped or added): when [normalize] returns, its
    output is a rearrangement of the row-by-row normalisations of the
    input, so both have the length of the input. *)
Theorem normalize_rearranges rows addr out :
  normalize rows addr = Ok out ->
  exists txs,
    Forall2 (fun r n => normalize_row r = Ok n) rows txs
    /\ Permutation txs out
    /\ length out = length rows.
Proof.
  unfold normalize. intros H.
  destruct (mapM normalize_row rows) as [txs|e] eqn:E; cbn [bind] in H; [|discriminate].
  injection H as <-. apply mapM_Ok in E.
  exists txs. split; [exact E|]. split; [apply sort_by_time_perm|].
  rewrite <- (Permutation_length (sort_by_time_perm txs)).
  symmetry. eapply List.Forall2_length. exact E.
Qed.

Lemma normalize_rearranges_witness :
  normalize raw_sample "0xabc" = Ok raw_sample_tx
  /\ length raw_sample_tx = length raw_sample.
Proof.
  assert (H : normalize raw_sample "0xabc" = Ok raw_sample_tx)
    by (vm_compute; reflexivity).
  split; [exact H|].
  destruct (normalize_rearranges _ _ _ H) as (txs & _ & _ & Hl). exact Hl.
Defined.

(** X2 (sorted output): when [normalize] returns, every record of the
    output is no later than every record after it. *)
Theorem normalize_sorted rows addr out :
  normalize rows addr = Ok out -> StronglySorted le_time out.
Proof.
  unfold normalize. intros H.
  destruct (mapM normalize_row rows) as [txs|e]; cbn [bind] in H; [|discriminate].
  injection H as <-. apply sort_by_time_sorted.
Qed.

Lemma normalize_sorted_witness :
  normalize raw_sample "0xabc" = Ok raw_sample_tx
  /\ StronglySorted le_time raw_sample_tx.
Proof.
  assert (H : normalize raw_sample "0xabc" = Ok raw_sample_tx)
    by (vm_compute; reflexivity).
  split; [exact H | exact (normalize_sorted _ _ _ H)].
Defined.

(** X3 (stable order): records that share a time stamp leave
    [normalize] in the order in which their rows came in. *)
Theorem normalize_stable rows addr out txs t :
  normalize rows addr = Ok out ->
  mapM normalize_row rows = Ok txs ->
  List.filter (at_time t) out = List.filter (at_time t) txs.
Proof.
  unfold normalize. intros H E. rewrite E in H. cbn [bind] in H.
  injection H as <-. apply sort_by_time_stable.
Qed.

(** X4 (one bad row aborts the batch): [normalize] raises [e] exactly
    when some row raises [e] and every row before it is accepted; no row
    is skipped and nothing is returned for the rows already done. *)
Theorem normalize_first_error rows addr e :
  normalize rows addr = Raise e <->
  exists pre r post,
    rows = (pre ++ r :: post)%list
    /\ Forall (fun r' => exists n, normalize_row r' = Ok n) pre
    /\ normalize_row r = Raise e.
Proof.
  rewrite <- mapM_Raise. unfold normalize.
  destruct (mapM normalize_row rows); cbn [bind]; split; congruence.
Qed.

Lemma normalize_stable_witness :
  normalize raw_sample "0xabc" = Ok raw_sample_tx
  /\ mapM normalize_row raw_sample = Ok raw_sample_unsorted
  /\ List.filter (at_time 10) raw_sample_tx
     = List.filter (at_time 10) raw_sample_unsorted.
Proof.
  assert (H : normalize raw_sample "0xabc" = Ok raw_sample_tx)
    by (vm_compute; reflexivity).
  assert (E : mapM normalize_row raw_sample = Ok raw_sample_unsorted)
    by (vm_compute; reflexivity).
  split; [exact H|]. split; [exact E|].
  exact (normalize_stable _ _ _ _ 10 H E).
Defined.

Lemma normalize_first_error_witness :
  normalize_row malformed_amount = Raise ValueError
  /\ normalize (raw_sample ++ malformed_amount :: raw_sample) "0xabc"
     = Raise ValueError.
Proof.
  assert (Hx : normalize_row malformed_amount = Raise ValueError)
    by (vm_compute; reflexivity).
  split; [exact Hx|].
  apply (proj2 (normalize_first_error _ "0xabc" ValueError)).
  exists raw_sample, malformed_amount, raw_sample.
  split; [reflexivity|]. split; [|exact Hx].
  repeat constructor; eexists; vm_compute; reflexivity.
Defined.

(** ** What a normalized record looks like *)

Lemma lower_char_not_upper c : Str.is_upper (Str.lower_char c) = false.
Proof. destruct c as [[] [] [] [] [] [] [] []]; vm_compute; reflexivity. Qed.

Lemma upper_char_not_lower c : Str.is_lower (Str.upper_char c) = false.
Proof. destruct c as [[] [] [] [] [] [] [] []]; vm_compute; reflexivity. Qed.

Lemma lower_no_upper s : no_upper (Str.lower s) = true.
Proof.
  induction s as [|c s IH]; [reflexivity|].
  cbn [Str.lower]. unfold no_upper in *. cbn [all_chars].
  now rewrite lower_char_not_upper, IH.
Qed.

Lemma upper_no_lower s : no_lower (Str.upper s) = true.
Proof.
  induction s as [|c s IH]; [reflexivity|].
  cbn [Str.upper]. unfold no_lower in *. cbn [all_chars].
  now rewrite upper_char_not_lower, IH.
Qed.

Lemma py_lower_no_upper v s : py_lower v = Ok s -> no_upper s = true.
Proof. destruct v; simpl; try discriminate. intros [= <-]. apply lower_no_upper. Qed.

Lemma py_upper_no_lower v s : py_upper v = Ok s -> no_lower s = true.
Proof. destruct v; simpl; try discriminate. intros [= <-]. apply upper_no_lower. Qed.

(** X5 (canonical case and amount): in every record [normalize]
    builds, the sender, the receiver and the method hold no upper-case
    letter, the token holds no lower-case letter, and the amount is
    either the float +0.0 or a float that is true in a condition (never
    -0.0). *)
Theorem normalize_row_canonical r n :
  normalize_row r = Ok n ->
  no_upper (tx_from n) = true /\ no_upper (tx_to n) = true
  /\ no_upper (tx_method n) = true /\ no_lower (tx_token n) = true
  /\ (tx_value n = float_of_Z 0 \/ float_truthy (tx_value n) = true).
Proof.
  unfold normalize_row. intros H.
  destruct (py_lower (py_or (get r "from") _)) as [f|] eqn:Ef;
    cbn [bind] in H; [|discriminate].
  destruct (py_lower (py_or (get r "to") _)) as [t|] eqn:Et;
    cbn [bind] in H; [|discriminate].
  destruct (py_lower (py_or (get r "method") _)) as [m|] eqn:Em;
    cbn [bind] in H; [|discriminate].
  destruct (py_upper _) as [k|] eqn:Ek; cbn [bind] in H; [|discriminate].
  destruct (py_float _) as [v|] eqn:Ev; cbn [bind] in H; [|discriminate].
  injection H as <-. cbn [tx_from tx_to tx_method tx_token tx_value].
  repeat split; eauto using py_lower_no_upper, py_upper_no_lower.
  destruct (float_truthy v) eqn:E; auto.
Qed.

Lemma normalize_row_canonical_witness :
  normalize_row falsy_first_aliases = Ok falsy_first_aliases_tx
  /\ no_upper (tx_from falsy_first_aliases_tx) = true.
Proof.
  assert (E : normalize_row falsy_first_aliases = Ok falsy_first_aliases_tx)
    by (vm_compute; reflexivity).
  split; [exact E | exact (proj1 (normalize_row_canonical _ _ E))].
Defined.

Lemma py_or_skipped r k x : Skipped r k -> py_or (get r k) x = x.
Proof.
  unfold py_or, get. intros [->|(u & -> & ->)]; reflexivity.
Qed.

(** X6 (missing and empty fields): a raw record in which every key the
    normalizer reads is absent or holds a false value ([None], an empty
    string, 0) is accepted and becomes the record of defaults: empty
    strings, amount 0.0 and time 0, whatever other keys it has. *)
Theorem normalize_row_defaults r :
  (forall k, In k alias_keys -> Skipped r k) ->
  normalize_row r = Ok default_tx.
Proof.
  intros H. unfold normalize_row.
  rewrite !py_or_skipped by (apply H; unfold alias_keys; simpl; tauto).
  reflexivity.
Qed.

Lemma normalize_row_defaults_witness :
  (forall k, In k alias_keys -> Skipped blank_row k)
  /\ normalize_row blank_row = Ok default_tx.
Proof.
  assert (H : forall k, In k alias_keys -> Skipped blank_row k).
  { intros k Hk. unfold alias_keys in Hk. simpl in Hk.
    repeat (destruct Hk as [<-|Hk];
            [first [ left; vm_compute; reflexivity
                   | right; eexists; split; vm_compute; reflexivity ]|]).
    destruct Hk. }
  split; [exact H | exact (normalize_row_defaults blank_row H)].
Defined.

Lemma float_of_string_error s e : float_of_string s = Raise e -> e = ValueError.
Proof.
  unfold float_of_string.
  destruct (Str.sign (Str.strip s)) as [neg t].
  destruct (_ || _); [discriminate|].
  destruct (String.eqb _ _); [discriminate|].
  destruct (mantissa t) as [[[m nf] rest]|]; [|congruence].
  destruct (exponent rest); [discriminate | congruence].
Qed.

Lemma or_chain_cells r ks d :
  (forall k v, r !! k = Some v -> Cell v) ->
  or_chain r ks d = d \/ exists s, or_chain r ks d = PStr s.
Proof.
  intros Hc. induction ks as [|k ks IH]; [now left|].
  change (or_chain r (k :: ks) d) with (py_or (get r k) (or_chain r ks d)).
  unfold py_or, get.
  destruct (r !! k) as [v|] eqn:E; [|exact IH].
  destruct (Hc k v E) as [->|[s ->]]; [exact IH|].
  destruct (truthy (PStr s)); [right; now exists s | exact IH].
Qed.

(** X7 (rows of a CSV export): a raw record whose values are all
    strings or missing cells is either accepted, or refused with
    [ValueError] because the selected amount is a string that [float]
    cannot read; no other field and no other exception can make it
    fail. *)
Theorem normalize_row_cells r :
  (forall k v, r !! k = Some v -> Cell v) ->
  (exists n, normalize_row r = Ok n)
  \/ (normalize_row r = Raise ValueError
      /\ exists s, Selected r (PInt 0) ["value"; "amount"] (PStr s)
                   /\ float_of_string s = Raise ValueError).
Proof.
  intros Hc. unfold normalize_row.
  change (py_or (get r "from") (py_or (get r "src") (PStr "")))
    with (or_chain r ["from"; "src"] (PStr "")).
  change (py_or (get r "to") (py_or (get r "dst") (PStr "")))
    with (or_chain r ["to"; "dst"] (PStr "")).
  change (py_or (get r "method") (py_or (get r "functionName") (PStr "")))
    with (or_chain r ["method"; "functionName"] (PStr "")).
  change (py_or (get r "tokenSymbol") (py_or (get r "symbol") (PStr "")))
    with (or_chain r ["tokenSymbol"; "symbol"] (PStr "")).
  change (py_or (get r "value") (py_or (get r "amount") (PInt 0)))
    with (or_chain r ["value"; "amount"] (PInt 0)).
  assert (Hs : forall ks, exists s, or_chain r ks (PStr "") = PStr s).
  { intros ks. destruct (or_chain_cells r ks (PStr "") Hc) as [->|H]; eauto. }
  destruct (Hs ["from"; "src"]) as [f ->].
  destruct (Hs ["to"; "dst"]) as [t ->].
  destruct (Hs ["method"; "functionName"]) as [m ->].
  destruct (Hs ["tokenSymbol"; "symbol"]) as [k ->].
  cbn [py_lower py_upper bind].
  pose proof (selected_or_chain r (PInt 0) ["value"; "amount"]) as Hsel.
  destruct (or_chain_cells r ["value"; "amount"] (PInt 0) Hc) as [E|[s E]];
    rewrite E in *.
  - left. cbn [py_float]. eexists. reflexivity.
  - cbn [py_float]. destruct (float_of_string s) as [v|e] eqn:Ef; cbn [bind].
    + left. eexists. reflexivity.
    + right. pose proof (float_of_string_error s e Ef) as ->.
      split; [reflexivity|]. now exists s.
Qed.

Lemma normalize_row_cells_witness :
  (forall k v, csv_row !! k = Some v -> Cell v)
  /\ ((exists n, normalize_row csv_row = Ok n)
      \/ (normalize_row csv_row = Raise ValueError
          /\ exists s, Selected csv_row (PInt 0) ["value"; "amount"] (PStr s)
                       /\ float_of_string s = Raise ValueError)).
Proof.
  assert (H : forall k v, csv_row !! k = Some v -> Cell v).
  { intros k v. unfold csv_row.
    rewrite !lookup_insert_Some, lookup_singleton_Some.
    unfold Cell. intuition (subst; eauto). }
  split; [exact H | exact (normalize_row_cells csv_row H)].
Defined.

(** ** Sorted input is what the scorer assumes *)

Lemma sorted_gaps l :
  StronglySorted le_time l -> Forall (fun g => 0 <= g) (gaps l).
Proof.
  induction 1 as [|a l Hs IH Ha]; [constructor|].
  destruct l as [|b l]; [constructor|].
  cbn [gaps]. constructor; [|exact IH].
  inversion Ha; subst. unfold le_time in *. lia.
Qed.

Lemma last_time_cons a l : l <> [] -> last_time (a :: l) = last_time l.
Proof.
  intros Hne. destruct (exists_last Hne) as (l' & x & ->).
  rewrite app_comm_cons, !last_time_snoc. reflexivity.
Qed.

Lemma last_time_in l : l <> [] -> exists x, In x l /\ last_time l = tx_time x.
Proof.
  intros Hne. destruct (exists_last Hne) as (l' & x & ->).
  exists x. rewrite last_time_snoc, in_app_iff. simpl. auto.
Qed.

Lemma sorted_last l r :
  StronglySorted le_time l -> In r l -> tx_time r <= last_time l.
Proof.
  induction 1 as [|a l Hs IH Ha]; intros Hin; [destruct Hin|].
  destruct l as [|b l].
  - destruct Hin as [<-|[]]. unfold last_time. simpl. lia.
  - rewrite last_time_cons by discriminate.
    destruct Hin as [<-|Hin]; [|now apply IH].
    destruct (last_time_in (b :: l)) as (x & Hx & ->); [discriminate|].
    rewrite List.Forall_forall in Ha. apply (Ha x Hx).
Qed.

(** X10 (what [normalize] hands to [score]): in the output of
    [normalize] every gap between consecutive records is non-negative
    and no record is later than the last one, which is what block 3 (gaps
    as spacings) and block 6 ([rows[-1]] as the latest record) of [score]
    take for granted. *)
Theorem normalize_feeds_score rows addr out :
  normalize rows addr = Ok out ->
  Forall (fun g => 0 <= g) (gaps out)
  /\ forall r, In r out -> tx_time r <= last_time out.
Proof.
  unfold normalize. intros H.
  destruct (mapM normalize_row rows) as [txs|e]; cbn [bind] in H; [|discriminate].
  injection H as <-.
  pose proof (sort_by_time_sorted txs) as Hs.
  split; [now apply sorted_gaps | intros r; now apply sorted_last].
Qed.

Lemma normalize_feeds_score_witness :
  normalize raw_sample "0xabc" = Ok raw_sample_tx
  /\ Forall (fun g => 0 <= g) (gaps raw_sample_tx).
Proof.
  assert (H : normalize raw_sample "0xabc" = Ok raw_sample_tx)
    by (vm_compute; reflexivity).
  split; [exact H | exact (proj1 (normalize_feeds_score _ _ _ H))].
Defined.

(** ** Decimal time stamps are read exactly *)
















(** ** The scorer as a whole *)

(** X11 (the score is a sum): on a history with a record, [score]
    returns exactly when the burst heuristic does, and then the score is
    the sum of five contributions (35 for mixers, [min(25, 5n)] for [n]
    sensitive calls, 10 for bursts, 10 for tokens, 15 for a wash pair)
    and the flags are those of the heuristics that fired, in that
    order. *)
Theorem score_is_sum_of_contributions v rows addr :
  rows <> [] ->
  score v rows addr
  = bind (burst_count v rows) (fun b =>
      Ok (float_of_Z (total_points rows (Str.lower addr) b),
          all_flags rows (Str.lower addr) b)).
Proof. apply score_sum. Qed.

Lemma score_is_sum_of_contributions_witness :
  full_history <> []
  /\ score Py313 full_history "0xABC"
     = bind (burst_count Py313 full_history) (fun b =>
         Ok (float_of_Z (total_points full_history (Str.lower "0xABC") b),
             all_flags full_history (Str.lower "0xABC") b)).
Proof.
  assert (Hne : full_history <> []) by discriminate.
  split; [exact Hne|].
  exact (score_is_sum_of_contributions Py313 full_history "0xABC" Hne).
Defined.

(** X12 (the dormancy block is dead): [score] never returns the flag
    ["no recent activity (cold wallet)"], and never lowers the points: the
    last record is always within thirty days of itself, so the list
    [recent] is never empty. *)
Theorem cold_wallet_flag_never_returned v rows addr s fl :
  score v rows addr = Ok (s, fl) ->
  ~ In cold_flag fl
  /\ (rows <> [] -> recent rows <> []
                    /\ forall st, cold_block rows st = st).
Proof.
  intros H. split; [exact (score_never_cold _ _ _ _ _ H)|].
  intros Hne. split; [now apply recent_nonempty|].
  intros st. now apply cold_block_id.
Qed.

Lemma cold_wallet_flag_never_returned_witness :
  score Py313 cold_history "0xABC"
  = Ok (float_of_Z 35, ["received from known mixer: 1 txs"])
  /\ ~ In cold_flag ["received from known mixer: 1 txs"].
Proof.
  assert (H : score Py313 cold_history "0xABC"
              = Ok (float_of_Z 35, ["received from known mixer: 1 txs"]))
    by (vm_compute; reflexivity).
  split; [exact H | exact (proj1 (cold_wallet_flag_never_returned _ _ _ _ _ H))].
Defined.

Lemma member_In x set : Str.member x set = true <-> In x set.
Proof.
  unfold Str.member. rewrite existsb_exists. split.
  - intros (y & Hy & E). apply String.eqb_eq in E. now subst.
  - intros H. exists x. split; [exact H | apply String.eqb_refl].
Qed.

Lemma from_mixers_count rows addr :
  Count (FromMixer addr) rows (length (from_mixers rows addr)).
Proof.
  apply count_filter. intros r. unfold FromMixer.
  now rewrite andb_true_iff, member_In, String.eqb_eq.
Qed.

Lemma bad_tokens_count rows addr :
  Count (BadToken addr) rows (length (bad_tokens rows addr)).
Proof.
  apply count_filter. intros r. unfold BadToken.
  now rewrite andb_true_iff, member_In, String.eqb_eq.
Qed.

(** X13 (mixer proximity): when [score] returns on a history in which [n]
    records go from a listed mixer to the lower-cased target, the first
    flag is ["received from known mixer: n txs"] and the heuristic
    contributes 35 points if [n > 0], whatever [n] is; if [n = 0] it
    contributes nothing and no flag starts like that. *)
Theorem mixer_heuristic_flat v rows addr s fl n :
  rows <> [] ->
  Count (FromMixer (Str.lower addr)) rows n ->
  score v rows addr = Ok (s, fl) ->
  exists b others,
    burst_count v rows = Ok b
    /\ others = approval_points (approvals rows (Str.lower addr)) + burst_points b
                + token_points rows (Str.lower addr)
                + wash_points rows (Str.lower addr)
    /\ s = float_of_Z (others + if (0 <? n)%nat then 35 else 0)
    /\ ((0 < n)%nat ->
        exists rest,
          fl = ("received from known mixer: " ++ Str.of_nat n ++ " txs")%string :: rest)
    /\ (n = 0%nat ->
        forall f, In f fl -> String.prefix "received from known mixer" f = false).
Proof.
  intros Hne Hn H.
  apply score_returns in H as (b & Hb & -> & ->); [|exact Hne].
  assert (En : length (from_mixers rows (Str.lower addr)) = n)
    by (eapply Count_functional; [apply from_mixers_count | exact Hn]).
  exists b, (approval_points (approvals rows (Str.lower addr)) + burst_points b
             + token_points rows (Str.lower addr) + wash_points rows (Str.lower addr)).
  split; [exact Hb|]. split; [reflexivity|].
  unfold total_points, all_flags, mixer_points, mixer_flags.
  destruct (from_mixers rows (Str.lower addr)) as [|r0 fm] eqn:Efm;
    cbn [length] in En; subst n.
  - change (0 <? 0)%nat with false. cbv iota.
    split; [f_equal; lia|]. split; [intros; lia|].
    intros _ f. unfold approval_flags, burst_flags, token_flags, wash_flags, wash_flag.
    cbn [app]. rewrite !in_app_iff.
    destruct (approvals _ _), (3 <=? b)%nat, (bad_tokens _ _),
      (first_wash_pair _ _) as [[x y]|];
      simpl; intuition (subst; reflexivity).
  - change (0 <? S (length fm))%nat with true. cbv iota.
    split; [f_equal; lia|]. split; [|discriminate].
    intros _. eexists. reflexivity.
Qed.

Lemma mixer_heuristic_flat_witness :
  cold_history <> []
  /\ Count (FromMixer (Str.lower "0xABC")) cold_history 1
  /\ score Py313 cold_history "0xABC"
     = Ok (float_of_Z 35, ["received from known mixer: 1 txs"])
  /\ exists others, float_of_Z 35 = float_of_Z (others + 35).
Proof.
  assert (Hne : cold_history <> []) by discriminate.
  assert (Hn : Count (FromMixer (Str.lower "0xABC")) cold_history 1)
    by exact (from_mixers_count cold_history (Str.lower "0xABC")).
  assert (H : score Py313 cold_history "0xABC"
              = Ok (float_of_Z 35, ["received from known mixer: 1 txs"]))
    by (vm_compute; reflexivity).
  repeat split; try assumption.
  destruct (mixer_heuristic_flat Py313 cold_history "0xABC" _ _ 1 Hne Hn H)
    as (b & others & _ & _ & Hs & _).
  exists others. exact Hs.
Defined.

(** X14 (suspicious tokens): when [score] returns on a history in which
    [n] records bring a blacklisted token to the lower-cased target, the
    heuristic contributes 10 points if [n > 0], whatever [n] is, with the
    flag ["received suspicious tokens: n"]; if [n = 0] it contributes
    nothing and no flag starts like that. *)
Theorem token_heuristic_flat v rows addr s fl n :
  rows <> [] ->
  Count (BadToken (Str.lower addr)) rows n ->
  score v rows addr = Ok (s, fl) ->
  exists b others,
    burst_count v rows = Ok b
    /\ others = mixer_points rows (Str.lower addr)
                + approval_points (approvals rows (Str.lower addr))
                + burst_points b + wash_points rows (Str.lower addr)
    /\ s = float_of_Z (others + if (0 <? n)%nat then 10 else 0)
    /\ ((0 < n)%nat -> In ("received suspicious tokens: " ++ Str.of_nat n)%string fl)
    /\ (n = 0%nat ->
        forall f, In f fl -> String.prefix "received suspicious" f = false).
Proof.
  intros Hne Hn H.
  apply score_returns in H as (b & Hb & -> & ->); [|exact Hne].
  assert (En : length (bad_tokens rows (Str.lower addr)) = n)
    by (eapply Count_functional; [apply bad_tokens_count | exact Hn]).
  exists b, (mixer_points rows (Str.lower addr)
             + approval_points (approvals rows (Str.lower addr))
             + burst_points b + wash_points rows (Str.lower addr)).
  split; [exact Hb|]. split; [reflexivity|].
  unfold total_points, all_flags, token_points, token_flags.
  destruct (bad_tokens rows (Str.lower addr)) as [|r0 bt] eqn:Ebt;
    cbn [length] in En; subst n.
  - change (0 <? 0)%nat with false. cbv iota.
    split; [f_equal; lia|]. split; [intros; lia|].
    intros _ f. unfold mixer_flags, approval_flags, burst_flags, wash_flags, wash_flag.
    rewrite !in_app_iff.
    destruct (from_mixers _ _), (approvals _ _), (3 <=? b)%nat,
      (first_wash_pair _ _) as [[x y]|];
      simpl; intuition (subst; reflexivity).
  - change (0 <? S (length bt))%nat with true. cbv iota.
    split; [f_equal; lia|]. split; [|discriminate].
    intros _. rewrite !in_app_iff. right. right. right. left. now left.
Qed.

Lemma token_heuristic_flat_witness :
  full_history <> []
  /\ Count (BadToken (Str.lower "0xABC")) full_history 3
  /\ (exists s fl, score Py313 full_history "0xABC" = Ok (s, fl)
                   /\ In "received suspicious tokens: 3" fl).
Proof.
  assert (Hne : full_history <> []) by discriminate.
  assert (Hn : Count (BadToken (Str.lower "0xABC")) full_history 3)
    by exact (bad_tokens_count full_history (Str.lower "0xABC")).
  split; [exact Hne|]. split; [exact Hn|].
  pose proof (score_95_attained Py313) as H.
  eexists _, _. split; [exact H|].
  destruct (token_heuristic_flat Py313 full_history "0xABC" _ _ 3 Hne Hn H)
    as (b & others & _ & _ & _ & Hin & _).
  apply Hin. lia.
Defined.

Lemma feqb_refl (x : float) : feqb x x = true.
Proof.
  destruct x as [s|s| |s m e]; simpl; try reflexivity;
    rewrite ?Bool.eqb_reflx, ?Pos.eqb_refl, ?Z.eqb_refl; reflexivity.
Qed.

Lemma float_of_Z_zero (a : Z) :
  0 <= a <= 100 -> float_of_Z a = float_of_Z 0 -> a = 0.
Proof.
  intros Ha E.
  assert (H : forallb (fun a => (a =? 0) || negb (feqb (float_of_Z a) (float_of_Z 0)))
                (upto 100) = true) by (vm_compute; reflexivity).
  rewrite forallb_forall in H. specialize (H a (in_upto 100 a ltac:(lia))).
  cbv beta in H. rewrite E, feqb_refl in H. cbn [negb] in H.
  rewrite orb_false_r in H. now apply Z.eqb_eq.
Qed.

Lemma total_points_zero rows addr b :
  total_points rows addr b = 0 <-> all_flags rows addr b = [].
Proof.
  unfold total_points, all_flags, mixer_points, mixer_flags, approval_flags,
    burst_points, burst_flags, token_points, token_flags, wash_points, wash_flags.
  pose proof (approval_points_range (approvals rows addr)) as [Ha _].
  destruct (from_mixers rows addr), (approvals rows addr) eqn:En, (3 <=? b)%nat,
    (bad_tokens rows addr), (first_wash_pair rows addr) as [[x y]|];
    cbn [app]; split; intros H; try discriminate; try reflexivity; try lia;
    simpl approval_points in *; lia.
Qed.

(** X15 (no points without a flag): whenever [score] returns, the score is
    0.0 exactly when the list of flags is empty: every flag comes with
    points and every point with a flag. *)
Theorem score_zero_iff_no_flags v rows addr s fl :
  score v rows addr = Ok (s, fl) ->
  (s = float_of_Z 0 <-> fl = []).
Proof.
  intros H. destruct rows as [|r rows].
  - injection H as <- <-. split; [|discriminate].
    intros E. pose proof (float_of_Z_zero 10 ltac:(lia) E). lia.
  - apply score_returns in H as (b & _ & -> & ->); [|discriminate].
    rewrite <- total_points_zero.
    pose proof (total_points_range (r :: rows) (Str.lower addr) b) as [Hr _].
    split; [intros E; apply float_of_Z_zero in E; lia | now intros ->].
Qed.

Lemma score_zero_iff_no_flags_witness :
  score Py313 [transfer "0xdef" "0x123" "swap" "DAI" 1700000000] "0xABC"
  = Ok (float_of_Z 0, [])
  /\ (float_of_Z 0 = float_of_Z 0 <-> @nil string = []).
Proof.
  assert (H : score Py313 [transfer "0xdef" "0x123" "swap" "DAI" 1700000000] "0xABC"
              = Ok (float_of_Z 0, [])) by (vm_compute; reflexivity).
  split; [exact H | exact (score_zero_iff_no_flags _ _ _ _ _ H)].
Defined.

(** X16 (no wash flag without a pair): whenever [score] returns, a flag
    that starts with ["wash-like transfers between "] names a directed
    pair that involves the lower-cased target and has at least three
    transfers in each direction. *)
Theorem wash_flag_needs_pair v rows addr s fl f :
  score v rows addr = Ok (s, fl) ->
  In f fl -> is_wash_flag f = true ->
  exists a b, f = wash_flag a b /\ WashPair rows (Str.lower addr) a b.
Proof.
  intros H Hin Hw. destruct rows as [|r rows].
  - injection H as <- <-. destruct Hin as [<-|[]]. discriminate.
  - apply score_returns in H as (b & _ & _ & ->); [|discriminate].
    assert (Hf : In f (List.filter is_wash_flag (all_flags (r :: rows) (Str.lower addr) b)))
      by (apply List.filter_In; split; assumption).
    rewrite wash_flags_only in Hf. unfold wash_flags in Hf.
    destruct (first_wash_pair (r :: rows) (Str.lower addr)) as [[x y]|] eqn:E;
      [|destruct Hf].
    destruct Hf as [<-|[]]. exists x, y. split; [reflexivity|].
    unfold first_wash_pair in E. apply List.find_some in E as [_ E].
    now apply wash_pair_spec.
Qed.

Lemma wash_flag_needs_pair_witness :
  score Py313 wash_history "0xABC"
  = Ok (float_of_Z 15, ["wash-like transfers between 0xabc and 0x111"])
  /\ exists a b, "wash-like transfers between 0xabc and 0x111" = wash_flag a b
                 /\ WashPair wash_history (Str.lower "0xABC") a b.
Proof.
  assert (H : score Py313 wash_history "0xABC"
              = Ok (float_of_Z 15, ["wash-like transfers between 0xabc and 0x111"]))
    by (vm_compute; reflexivity).
  split; [exact H|].
  apply (wash_flag_needs_pair _ _ _ _ _ _ H); [now left | reflexivity].
Defined.

(** ** Gaps of at most ten seconds are always bursts *)

Lemma is_burst_small x g : g <= 10 -> is_burst x g = true.
Proof.
  intros Hg. unfold is_burst, fgt_Z, Zle_f, fcompare_Z.
  destruct x as [s|s| |s m e].
  - simpl. now apply Z.leb_le.
  - destruct s; [now apply Z.leb_le | reflexivity].
  - now apply Z.leb_le.
  - assert (Hp : 0 < 2 ^ (- e) \/ 0 <= e) by (destruct (Z.le_gt_cases 0 e); [auto|left; apply Z.pow_pos_nonneg; lia]).
    destruct (0 <=? e) eqn:Ee.
    + destruct (_ ?= 10) eqn:E10; try (now apply Z.leb_le).
      apply Z.compare_gt_iff in E10.
      replace (_ ?= g) with Gt; [reflexivity|].
      symmetry. apply Z.compare_gt_iff. lia.
    + apply Z.leb_gt in Ee. destruct Hp as [Hp|Hp]; [|lia].
      destruct (_ ?= 10 * 2 ^ (- e)) eqn:E10; try (now apply Z.leb_le).
      apply Z.compare_gt_iff in E10.
      replace (_ ?= g * 2 ^ (- e)) with Gt; [reflexivity|].
      symmetry. apply Z.compare_gt_iff. nia.
Qed.

Lemma filter_length_le {A} (p q : A -> bool) (l : list A) :
  (forall x, p x = true -> q x = true) ->
  (length (List.filter p l) <= length (List.filter q l))%nat.
Proof.
  intros Hpq. induction l as [|x l IH]; simpl; [lia|].
  destruct (p x) eqn:Ep.
  - rewrite (Hpq x Ep). simpl. lia.
  - destruct (q x); simpl; lia.
Qed.

Lemma burst_count_small v rows b :
  burst_count v rows = Ok b -> (small_gaps rows <= b)%nat.
Proof.
  unfold burst_count, small_gaps.
  destruct (gaps rows) as [|g gs] eqn:Eg.
  - intros [= <-]. simpl. lia.
  - unfold bursts. generalize (g :: gs). intros gl.
    destruct (quantiles v gl 4) as [[|q1 qs]|e]; cbn [bind]; try discriminate.
    destruct (div5 q1) as [x|e]; cbn [bind]; [|discriminate].
    intros [= <-]. apply filter_length_le.
    intros z Hz. apply is_burst_small. now apply Z.leb_le.
Qed.

(** X17 (short gaps always count): a gap of at most ten seconds is a
    burst whatever the first quartile is, since the threshold is
    [max(10, q1/5)].  So when [score] returns on a history with at least
    three such gaps, the flag ["bot-like bursts: b"] is present for some
    [b] that is at least their number. *)
Theorem short_gaps_are_bursts v rows addr s fl :
  (3 <= small_gaps rows)%nat ->
  score v rows addr = Ok (s, fl) ->
  exists b,
    (small_gaps rows <= b)%nat
    /\ burst_count v rows = Ok b
    /\ In ("bot-like bursts: " ++ Str.of_nat b)%string fl.
Proof.
  intros H3 H.
  assert (Hne : rows <> []).
  { intros ->. unfold small_gaps in H3. simpl in H3. lia. }
  apply score_returns in H as (b & Hb & _ & ->); [|exact Hne].
  pose proof (burst_count_small v rows b Hb) as Hs.
  exists b. split; [exact Hs|]. split; [exact Hb|].
  unfold all_flags, burst_flags. rewrite !in_app_iff. right. right. left.
  replace (3 <=? b)%nat with true by (symmetry; apply Nat.leb_le; lia).
  now left.
Qed.

Lemma short_gaps_are_bursts_witness :
  (3 <= small_gaps full_history)%nat
  /\ exists b, (small_gaps full_history <= b)%nat
               /\ burst_count Py38_312 full_history = Ok b.
Proof.
  assert (H3 : (3 <= small_gaps full_history)%nat) by (vm_compute; lia).
  split; [exact H3|].
  destruct (short_gaps_are_bursts Py38_312 full_history "0xABC" _ _ H3
              (score_95_attained Py38_312)) as (b & Hs & Hb & _).
  now exists b.
Defined.

(** ** The target address is read without its letter case *)

Lemma lower_char_idem c : Str.lower_char (Str.lower_char c) = Str.lower_char c.
Proof. destruct c as [[] [] [] [] [] [] [] []]; vm_compute; reflexivity. Qed.

Lemma lower_upper_char c : Str.lower_char (Str.upper_char c) = Str.lower_char c.
Proof. destruct c as [[] [] [] [] [] [] [] []]; vm_compute; reflexivity. Qed.

Lemma lower_idem s : Str.lower (Str.lower s) = Str.lower s.
Proof.
  induction s as [|c s IH]; [reflexivity|].
  cbn [Str.lower]. now rewrite lower_char_idem, IH.
Qed.

Lemma lower_upper s : Str.lower (Str.upper s) = Str.lower s.
Proof.
  induction s as [|c s IH]; [reflexivity|].
  cbn [Str.lower Str.upper]. now rewrite lower_upper_char, IH.
Qed.

(** X18 (case of the target): [score] gives the same result for an
    address, its lower-case form and its upper-case form. *)
Theorem score_ignores_address_case v rows addr :
  score v rows (Str.lower addr) = score v rows addr
  /\ score v rows (Str.upper addr) = score v rows addr.
Proof.
  unfold score. now rewrite lower_idem, lower_upper.
Qed.

(** ** The source scanner: case, context and range *)

Lemma newline_lower c :
  Ascii.eqb (Str.lower_char c) newline = Ascii.eqb c newline.
Proof. destruct c as [[] [] [] [] [] [] [] []]; vm_compute; reflexivity. Qed.

Lemma newline_upper c :
  Ascii.eqb (Str.upper_char c) newline = Ascii.eqb c newline.
Proof. destruct c as [[] [] [] [] [] [] [] []]; vm_compute; reflexivity. Qed.

Lemma char_matches_lower p c : char_matches p (Str.lower_char c) = char_matches p c.
Proof.
  unfold char_matches. destruct (Ascii.eqb p ".").
  - now rewrite newline_lower.
  - now rewrite lower_char_idem.
Qed.

Lemma char_matches_upper p c : char_matches p (Str.upper_char c) = char_matches p c.
Proof.
  unfold char_matches. destruct (Ascii.eqb p ".").
  - now rewrite newline_upper.
  - now rewrite lower_upper_char.
Qed.

Lemma match_here_case pattern s :
  match_here pattern (Str.lower s) = match_here pattern s
  /\ match_here pattern (Str.upper s) = match_here pattern s.
Proof.
  revert s. induction pattern as [|p pattern IH]; intros s; [split; reflexivity|].
  destruct s as [|c s]; [split; reflexivity|].
  cbn [Str.lower Str.upper match_here].
  destruct (IH s) as [-> ->].
  now rewrite char_matches_lower, char_matches_upper.
Qed.

Lemma search_case pattern s :
  search pattern (Str.lower s) = search pattern s
  /\ search pattern (Str.upper s) = search pattern s.
Proof.
  induction s as [|c s [IHl IHu]].
  - split; reflexivity.
  - pose proof (match_here_case pattern (String c s)) as [Hl Hu].
    cbn [Str.lower Str.upper] in *. cbn [search].
    now rewrite Hl, Hu, IHl, IHu.
Qed.

Lemma analyze_with_case rules code :
  analyze_with rules (Str.lower code) = analyze_with rules code
  /\ analyze_with rules (Str.upper code) = analyze_with rules code.
Proof.
  unfold analyze_with. generalize (mk_report 0 []).
  induction rules as [|r rules IH]; intros st; [split; reflexivity|].
  cbn [fold_left]. unfold apply_rule at 2 4 6.
  destruct (search_case (regex r) code) as [-> ->].
  apply IH.
Qed.

(** X20 (letter case of the source): [analyze] gives the same report for
    a text, its lower-case form and its upper-case form. *)
Theorem analyze_ignores_case code :
  analyze (Str.lower code) = analyze code
  /\ analyze (Str.upper code) = analyze code.
Proof. apply analyze_with_case. Qed.

Lemma match_here_app pattern s t :
  match_here pattern s = true -> match_here pattern (s ++ t) = true.
Proof.
  revert s. induction pattern as [|p pattern IH]; intros s; [reflexivity|].
  destruct s as [|c s]; [discriminate|].
  rewrite append_cons. cbn [match_here].
  intros H. apply andb_prop in H as [-> H]. now rewrite IH.
Qed.

Lemma search_step pattern c s :
  search pattern (String c s)
  = if match_here pattern (String c s) then true else search pattern s.
Proof. reflexivity. Qed.

Lemma search_match_here pattern s :
  match_here pattern s = true -> search pattern s = true.
Proof.
  intros H. destruct s; [|rewrite search_step; now rewrite H].
  change (search pattern "") with (if match_here pattern "" then true else false).
  now rewrite H.
Qed.

Lemma search_app_r pattern s t :
  search pattern s = true -> search pattern (s ++ t) = true.
Proof.
  induction s as [|c s IH].
  - change (search pattern "") with (if match_here pattern "" then true else false).
    destruct (match_here pattern "") eqn:E; [|discriminate].
    intros _. apply search_match_here. now apply (match_here_app pattern "" t).
  - rewrite append_cons, !search_step.
    destruct (match_here pattern (String c s)) eqn:E.
    + intros _. apply (match_here_app _ _ t) in E. rewrite append_cons in E.
      now rewrite E.
    + intros H. rewrite (IH H).
      destruct (match_here pattern (String c (s ++ t))); reflexivity.
Qed.

Lemma search_app_l pattern s t :
  search pattern t = true -> search pattern (s ++ t) = true.
Proof.
  intros H. induction s as [|c s IH]; [exact H|].
  rewrite append_cons, search_step, IH.
  destruct (match_here pattern (String c (s ++ t))); reflexivity.
Qed.

Lemma search_context pattern pre code post :
  search pattern code = true -> search pattern (pre ++ code ++ post) = true.
Proof. intros H. now apply search_app_l, search_app_r. Qed.

Lemma matched_context rules pre code post r :
  In r (matched rules code) -> In r (matched rules (pre ++ code ++ post)).
Proof.
  unfold matched. rewrite !List.filter_In. intros [Hr Hs].
  split; [exact Hr | now apply search_context].
Qed.

Lemma matched_weight_le rules code code' :
  Forall (fun r => 0 <= weight r) rules ->
  (forall r, search (regex r) code = true -> search (regex r) code' = true) ->
  sumZ (map weight (matched rules code)) <= sumZ (map weight (matched rules code')).
Proof.
  intros Hw Hs. induction Hw as [|r rules Hr _ IH]; simpl; [lia|].
  destruct (search (regex r) code) eqn:E.
  - rewrite (Hs r E). simpl. lia.
  - destruct (search (regex r) code'); simpl; lia.
Qed.

Lemma analyze_matched code :
  analyze code = mk_report (sumZ (map weight (matched RULES code)))
                           (map desc (matched RULES code)).
Proof. unfold analyze, analyze_with. now rewrite analyze_with_matched. Qed.

(** X21 (more text, no less risk): surrounding a text with any prefix and
    suffix never lowers its risk and never removes a reason. *)
Theorem analyze_monotone pre code post :
  risk (analyze code) <= risk (analyze (pre ++ code ++ post))
  /\ incl (reasons (analyze code)) (reasons (analyze (pre ++ code ++ post))).
Proof.
  rewrite !analyze_matched. cbn [risk reasons]. split.
  - apply matched_weight_le.
    + repeat constructor; simpl; lia.
    + intros r. apply search_context.
  - intros d Hd. apply in_map_iff in Hd as (r & <- & Hr).
    apply in_map. now apply matched_context.
Qed.

(** X22 (range of the report): the risk is between 0 and 95, there are at
    most three reasons, and the risk is 0 exactly when there is no
    reason. *)
Theorem analyze_range code :
  0 <= risk (analyze code) <= 95
  /\ (length (reasons (analyze code)) <= 3)%nat
  /\ (risk (analyze code) = 0 <-> reasons (analyze code) = []).
Proof.
  rewrite analyze_matched. unfold matched, RULES. cbn [List.filter regex].
  destruct (search "call.value" code), (search "selfdestruct" code),
    (search "delegatecall" code); cbn; repeat split; try lia; discriminate.
Qed.

Lemma lower_app s t : Str.lower (s ++ t) = (Str.lower s ++ Str.lower t)%string.
Proof.
  induction s as [|c s IH]; [reflexivity|].
  rewrite append_cons. cbn [Str.lower]. now rewrite append_cons, IH.
Qed.

Lemma search_split pattern s :
  search pattern s = true ->
  exists pre post, s = (pre ++ post)%string /\ match_here pattern post = true.
Proof.
  induction s as [|c s IH].
  - change (search pattern "") with (if match_here pattern "" then true else false).
    destruct (match_here pattern "") eqn:E; [|discriminate].
    intros _. now exists EmptyString, EmptyString.
  - rewrite search_step. destruct (match_here pattern (String c s)) eqn:E.
    + intros _. now exists EmptyString, (String c s).
    + intros H. destruct (IH H) as (pre & post & -> & Hm).
      now exists (String c pre), post.
Qed.

Lemma char_matches_letter p c :
  Ascii.eqb p "." = false ->
  Str.lower_char p = p ->
  char_matches p c = true -> Str.lower_char c = p.
Proof.
  intros Hd Hp. unfold char_matches. rewrite Hd, Hp.
  intros H. apply Ascii.eqb_eq in H. now symmetry.
Qed.

Ltac next_letter H post c :=
  destruct post as [|c post]; [discriminate|];
  cbn [match_here] in H;
  let Hc := fresh "Hc" in
  apply andb_prop in H as [Hc H];
  try apply char_matches_letter in Hc; [|reflexivity..].

(** X23 (the dot of the reentrancy rule): the reentrancy reason is given
    exactly when, letter case aside, the text holds ["call"] and
    ["value"] separated by one character that is not a line break: a
    dot, but also a brace, a space or an underscore. *)
Theorem reentrancy_rule_dot code :
  In "Potential reentrancy (call.value)" (reasons (analyze code)) <->
  exists pre c post,
    Str.lower code = (pre ++ "call" ++ String c ("value" ++ post))%string
    /\ c <> newline.
Proof.
  assert (Hr : In "Potential reentrancy (call.value)" (reasons (analyze code))
               <-> search "call.value" code = true).
  { rewrite analyze_matched. unfold matched, RULES. cbn [List.filter regex reasons].
    destruct (search "call.value" code), (search "selfdestruct" code),
      (search "delegatecall" code); cbn; intuition discriminate. }
  rewrite Hr. split.
  - intros H. apply search_split in H as (pre & post & -> & H).
    next_letter H post c1. next_letter H post c2. next_letter H post c3.
    next_letter H post c4.
    destruct post as [|c5 post]; [discriminate|].
    cbn [match_here] in H. apply andb_prop in H as [Hdot H].
    next_letter H post c6. next_letter H post c7. next_letter H post c8.
    next_letter H post c9. next_letter H post c10.
    exists (Str.lower pre), (Str.lower_char c5), (Str.lower post).
    split.
    + rewrite lower_app. cbn [Str.lower].
      rewrite Hc, Hc0, Hc1, Hc2, Hc3, Hc4, Hc5, Hc6, Hc7. reflexivity.
    + unfold char_matches in Hdot. change (Ascii.eqb "." ".") with true in Hdot.
      cbv iota in Hdot. apply negb_true_iff in Hdot.
      rewrite <- newline_lower in Hdot. now apply Ascii.eqb_neq.
  - intros (pre & c & post & E & Hc).
    rewrite <- (proj1 (search_case "call.value" code)), E.
    apply search_app_l, search_match_here.
    change (match_here "call.value" ("call" ++ String c ("value" ++ post)))
      with (negb (Ascii.eqb c newline) && true).
    apply Ascii.eqb_neq in Hc. now rewrite Hc.
Qed.

(** ** When the burst heuristic returns

    The division of two integers overflows only beyond the range of
    binary64: a quotient whose dividend is below [2^k] in absolute
    value, for some [k <= 1023], is always a float. *)

Lemma digits2_pos_size p : digits2_pos p = Pos.size p.
Proof. induction p; simpl; now rewrite ?IHp. Qed.

Lemma Zdigits2_nonneg m : 0 <= Zdigits2 m.
Proof. destruct m; simpl; lia. Qed.

Lemma Zdigits2_lt m : 0 <= m -> m < 2 ^ Zdigits2 m.
Proof.
  destruct m as [|p|p]; simpl Zdigits2; [lia| |lia]. intros _.
  rewrite digits2_pos_size.
  pose proof (Pos.size_gt p) as H.
  apply Pos2Z.pos_lt_pos in H. now rewrite Pos2Z.inj_pow in H.
Qed.

Lemma Zdigits2_le m k : 0 <= m -> 0 <= k -> m < 2 ^ k -> Zdigits2 m <= k.
Proof.
  destruct m as [|p|p]; simpl Zdigits2; [lia| |lia]. intros _ Hk Hm.
  rewrite digits2_pos_size.
  pose proof (Pos.size_le p) as H.
  apply Pos2Z.pos_le_pos in H. rewrite Pos2Z.inj_pow in H.
  assert (Hlt : 2 ^ Z.pos (Pos.size p) < 2 ^ (k + 1)).
  { rewrite Z.pow_add_r, Z.pow_1_r by lia. change (Z.pos p~0) with (2 * Z.pos p) in H. lia. }
  apply Z.pow_lt_mono_r_iff in Hlt; lia.
Qed.

Lemma shr_m_of_loc m l : shr_m (shr_record_of_loc m l) = m.
Proof. destruct l as [|[]]; reflexivity. Qed.

Lemma shr_1_half r :
  0 <= shr_m r -> 0 <= shr_m (shr_1 r) /\ 2 * shr_m (shr_1 r) <= shr_m r.
Proof.
  destruct r as [m rr s]. cbn [shr_m]. intros Hm.
  destruct m as [|[p|p|]|p]; cbn [shr_1 shr_m]; lia.
Qed.

Lemma iter_shr_1 p r :
  0 <= shr_m r ->
  0 <= shr_m (SpecFloat.iter_pos shr_1 p r)
  /\ shr_m (SpecFloat.iter_pos shr_1 p r) * 2 ^ Z.pos p <= shr_m r.
Proof.
  revert r. induction p as [p IH|p IH|]; intros r Hr; cbn [SpecFloat.iter_pos].
  - destruct (shr_1_half r Hr) as [H0 H1].
    destruct (IH _ H0) as [H2 H3]. destruct (IH _ H2) as [H4 H5].
    split; [exact H4|].
    replace (Z.pos p~1) with (Z.pos p + Z.pos p + 1) by lia.
    rewrite !Z.pow_add_r, Z.pow_1_r by lia.
    assert (0 < 2 ^ Z.pos p) by (apply Z.pow_pos_nonneg; lia). nia.
  - destruct (IH _ Hr) as [H2 H3]. destruct (IH _ H2) as [H4 H5].
    split; [exact H4|].
    replace (Z.pos p~0) with (Z.pos p + Z.pos p) by lia.
    rewrite !Z.pow_add_r by lia.
    assert (0 < 2 ^ Z.pos p) by (apply Z.pow_pos_nonneg; lia). nia.
  - destruct (shr_1_half r Hr) as [H0 H1]. split; [exact H0|].
    change (2 ^ 1) with 2. lia.
Qed.

Lemma round_nearest_even_bound m l :
  m <= round_nearest_even m l <= m + 1.
Proof. destruct l as [|[]]; simpl; try lia. destruct (Z.even m); lia. Qed.

(** After a shift to the exponent the format asks for, the mantissa
    fits under the number of digits that is left. *)
Lemma shr_fexp_bound m e l :
  0 <= m ->
  let '(r, e') := shr_fexp prec emax m e l in
  0 <= shr_m r
  /\ e' = Z.max e (fexp prec emax (Zdigits2 m + e))
  /\ shr_m r < 2 ^ Z.max (Zdigits2 m + e - e') 0.
Proof.
  intros Hm. unfold shr_fexp, shr.
  pose proof (Zdigits2_lt m Hm) as Hd.
  pose proof (Zdigits2_nonneg m) as Hd0.
  destruct (fexp prec emax (Zdigits2 m + e) - e) as [|p|p] eqn:En;
    rewrite ?shr_m_of_loc.
  - split; [exact Hm|]. split; [lia|].
    replace (Z.max (Zdigits2 m + e - e) 0) with (Zdigits2 m) by lia. exact Hd.
  - destruct (iter_shr_1 p (shr_record_of_loc m l)) as [H0 H1];
      rewrite ?shr_m_of_loc in *; [exact Hm|].
    split; [exact H0|]. split; [lia|].
    set (x := shr_m (SpecFloat.iter_pos shr_1 p (shr_record_of_loc m l))) in *.
    assert (Hp : 0 < 2 ^ Z.pos p) by (apply Z.pow_pos_nonneg; lia).
    destruct (Z.le_gt_cases (Z.pos p) (Zdigits2 m)) as [Hle|Hgt].
    + replace (Z.max (Zdigits2 m + e - (e + Z.pos p)) 0)
        with (Zdigits2 m - Z.pos p) by lia.
      assert (E : 2 ^ Zdigits2 m = 2 ^ (Zdigits2 m - Z.pos p) * 2 ^ Z.pos p).
      { rewrite <- Z.pow_add_r by lia. f_equal. lia. }
      nia.
    + replace (Z.max (Zdigits2 m + e - (e + Z.pos p)) 0) with 0 by lia.
      assert (2 ^ Zdigits2 m < 2 ^ Z.pos p) by (apply Z.pow_lt_mono_r; lia).
      change (2 ^ 0) with 1. nia.
  - split; [exact Hm|]. split; [lia|].
    replace (Z.max (Zdigits2 m + e - e) 0) with (Zdigits2 m) by lia. exact Hd.
Qed.

Lemma binary_round_aux_finite s m e l :
  0 <= m -> e <= 0 -> Zdigits2 m + e <= 1023 ->
  is_infinity (binary_round_aux prec emax s m e l) = false.
Proof.
  intros Hm He Hd. unfold binary_round_aux.
  pose proof (shr_fexp_bound m e l Hm) as H1.
  destruct (shr_fexp prec emax m e l) as [r1 e1].
  destruct H1 as (Hr1 & He1 & Hb1).
  set (m2 := round_nearest_even (shr_m r1) (loc_of_shr_record r1)).
  pose proof (round_nearest_even_bound (shr_m r1) (loc_of_shr_record r1)) as Hm2.
  fold m2 in Hm2.
  assert (Hm2' : 0 <= m2) by lia.
  pose proof (shr_fexp_bound m2 e1 loc_Exact Hm2') as H2.
  destruct (shr_fexp prec emax m2 e1 loc_Exact) as [r2 e2].
  destruct H2 as (Hr2 & He2 & _).
  destruct (shr_m r2) as [|p|p]; [reflexivity| |reflexivity].
  assert (Hk : Zdigits2 m2 <= Z.max (Zdigits2 m + e - e1) 0 + 1).
  { apply Zdigits2_le; [exact Hm2' | lia|].
    rewrite Z.pow_add_r, Z.pow_1_r by lia. lia. }
  unfold fexp, SpecFloat.emin, prec, emax in *.
  replace (e2 <=? 1024 - 53) with true; [reflexivity|].
  symmetry. apply Z.leb_le. lia.
Qed.

Lemma int_truediv_returns a b k :
  b <> 0 -> 0 <= k <= 1023 -> - 2 ^ k < a < 2 ^ k ->
  exists q, int_truediv a b = Ok q.
Proof.
  intros Hb Hk Ha. unfold int_truediv.
  replace (b =? 0) with false by (symmetry; now apply Z.eqb_neq).
  assert (Hfin : is_infinity (SFdiv prec emax (exact a) (exact b)) = false).
  { destruct a as [|pa|pa], b as [|pb|pb]; try contradiction; try reflexivity;
      cbn [exact SFdiv];
      unfold SFdiv_core_binary;
      set (mx := Z.pos pa); set (my := Z.pos pb);
      set (e' := Z.min (fexp prec emax (Zdigits2 mx + 0 - (Zdigits2 my + 0))) (0 - 0));
      (assert (He' : e' <= 0) by (unfold e'; lia));
      (assert (Hmx : 0 < mx < 2 ^ k) by (unfold mx; lia));
      (assert (Hmy : 0 < my) by (unfold my; lia));
      set (m' := match 0 - 0 - e' with
                 | 0 => mx | Z.pos _ => Z.shiftl mx (0 - 0 - e') | Z.neg _ => 0 end);
      (assert (Hm' : m' = mx * 2 ^ (- e')) by
         (unfold m'; replace (0 - 0 - e') with (- e') by lia;
          destruct (- e') eqn:E; [lia | rewrite Z.shiftl_mul_pow2 by lia; reflexivity | lia]));
      (destruct (Z.div_eucl m' my) as [q r] eqn:Eq);
      (assert (Hq : q = m' / my) by (unfold Z.div; now rewrite Eq));
      (assert (Hp : 0 < 2 ^ (- e')) by (apply Z.pow_pos_nonneg; lia));
      (assert (Hq0 : 0 <= q) by (rewrite Hq; apply Z.div_pos; nia));
      (assert (Hqm : q <= m') by (rewrite Hq; apply Z.div_le_upper_bound; nia));
      apply binary_round_aux_finite; try assumption;
      (assert (Hdx : Zdigits2 mx <= 1023) by
         (apply Z.le_trans with (m := k); [apply Zdigits2_le; lia | lia]));
      (assert (Hdq : Zdigits2 q <= Zdigits2 mx + - e');
       [ apply Zdigits2_le; [exact Hq0 | pose proof (Zdigits2_nonneg mx); lia |];
         rewrite Z.pow_add_r by (pose proof (Zdigits2_nonneg mx); lia);
         pose proof (Zdigits2_lt mx ltac:(lia)); nia
       | lia ]). }
  rewrite Hfin. eexists. reflexivity.
Qed.

Lemma insert_sorted_In x y l : In x (insert_sorted y l) -> x = y \/ In x l.
Proof.
  induction l as [|z l IH]; simpl.
  - intros [<-|[]]. now left.
  - destruct (y <=? z); simpl; intuition.
Qed.

Lemma sorted_In x l : In x (sorted l) -> In x l.
Proof.
  induction l as [|y l IH]; simpl; [tauto|].
  intros H. apply insert_sorted_In in H as [->|H]; auto.
Qed.

Lemma insert_sorted_length y l : length (insert_sorted y l) = S (length l).
Proof.
  induction l as [|z l IH]; simpl; [reflexivity|].
  destruct (y <=? z); simpl; now rewrite ?IH.
Qed.

Lemma sorted_length l : length (sorted l) = length l.
Proof.
  induction l as [|y l IH]; simpl; [reflexivity|].
  now rewrite insert_sorted_length, IH.
Qed.

Lemma item_bound data i B :
  0 < B -> (forall x, In x data -> - B < x < B) -> - B < item data i < B.
Proof.
  intros HB H. unfold item.
  destruct (nth_in_or_default (Z.to_nat i) data 0) as [Hin| ->]; [now apply H | lia].
Qed.

Lemma time_bound_facts : 0 < time_bound /\ 20 * time_bound < 2 ^ 1005.
Proof. unfold time_bound. split; reflexivity. Qed.

Lemma within_range x c :
  - (c * time_bound) < x < c * time_bound -> 0 <= c <= 20 ->
  - 2 ^ 1005 < x < 2 ^ 1005.
Proof.
  destruct time_bound_facts as [H0 H1]. revert H0 H1.
  generalize (2 ^ 1005) time_bound. intros P T H0 H1 Hx Hc. nia.
Qed.

Lemma gaps_bound rows g :
  bounded_times rows -> In g (gaps rows) ->
  - (2 * time_bound) < g < 2 * time_bound.
Proof.
  unfold bounded_times. revert g.
  induction rows as [|r rows IH]; intros g Hb; [intros []|].
  destruct rows as [|r' rows]; [intros []|].
  cbn [gaps]. intros [<-|Hg].
  - pose proof (Hb r ltac:(now left)). pose proof (Hb r' ltac:(right; now left)). lia.
  - apply IH; [|exact Hg]. intros x Hx. apply Hb. now right.
Qed.

(** The interpolation between two data points, for the weights the
    quartiles use. *)
Lemma interpolation_returns x y c :
  - (2 * time_bound) < x < 2 * time_bound ->
  - (2 * time_bound) < y < 2 * time_bound ->
  -1 <= c <= 5 ->
  exists q, bind (int_truediv (x * (4 - c) + y * c) 4) (fun q => Ok (NFloat q))
            = Ok (NFloat q).
Proof.
  intros Hx Hy Hc.
  assert (Hn : - (20 * time_bound) < x * (4 - c) + y * c < 20 * time_bound).
  { revert Hx Hy. generalize time_bound. intros T Hx Hy. nia. }
  destruct (int_truediv_returns (x * (4 - c) + y * c) 4 1005) as [q Hq];
    [discriminate | split; discriminate | apply (within_range _ 20 Hn); split; discriminate |].
  exists q. now rewrite Hq.
Qed.

Lemma quantiles_returns v data :
  (2 <= length data)%nat ->
  (forall x, In x data -> - (2 * time_bound) < x < 2 * time_bound) ->
  exists q1 q2 q3, quantiles v data 4 = Ok [NFloat q1; NFloat q2; NFloat q3].
Proof.
  intros Hl Hb. unfold quantiles.
  change (4 <? 1) with false. cbv iota.
  pose proof (sorted_length data) as Hsl.
  assert (Hsb : forall x, In x (sorted data) -> - (2 * time_bound) < x < 2 * time_bound)
    by (intros x Hx; apply Hb; now apply sorted_In).
  set (d := sorted data) in *.
  set (ld := Z.of_nat (length d)).
  assert (Hld : 2 <= ld) by (unfold ld; lia).
  replace (ld <? 2) with false by (symmetry; apply Z.ltb_ge; lia).
  change (range1 4) with [1; 2; 3].
  destruct time_bound_facts as [HB _].
  assert (HB2 : 0 < 2 * time_bound) by lia.
  assert (Hstep : forall i, 1 <= i <= 3 ->
    exists q,
      (let j := i * (ld + 1) / 4 in
       let j := if j <? 1 then 1 else if ld - 1 <? j then ld - 1 else j in
       let delta := i * (ld + 1) - j * 4 in
       bind (int_truediv (item d (j - 1) * (4 - delta) + item d j * delta) 4)
            (fun q => Ok (NFloat q))) = Ok (NFloat q)).
  { intros i Hi. cbv zeta.
    apply interpolation_returns; try (apply item_bound; assumption).
    pose proof (Z.div_mod (i * (ld + 1)) 4 ltac:(lia)) as Hdm.
    pose proof (Z.mod_pos_bound (i * (ld + 1)) 4 ltac:(lia)) as Hmod.
    set (j0 := i * (ld + 1) / 4) in *.
    destruct (Z.ltb_spec j0 1); [nia|].
    destruct (Z.ltb_spec (ld - 1) j0); nia. }
  destruct (Hstep 1 ltac:(lia)) as [q1 H1].
  destruct (Hstep 2 ltac:(lia)) as [q2 H2].
  destruct (Hstep 3 ltac:(lia)) as [q3 H3].
  exists q1, q2, q3. cbn [mapM].
  cbv zeta in H1, H2, H3. rewrite H1. cbn [bind]. rewrite H2. cbn [bind].
  rewrite H3. reflexivity.
Qed.

Lemma burst_count_returns v rows :
  bounded_times rows ->
  (v = Py38_312 -> length rows <> 2%nat) ->
  exists b, burst_count v rows = Ok b.
Proof.
  intros Hb Hv. unfold burst_count.
  pose proof (gaps_bound rows) as Hg.
  destruct rows as [|r1 [|r2 [|r3 rows]]].
  - now exists 0%nat.
  - now exists 0%nat.
  - cbn [gaps] in *. destruct v; [exfalso; now apply Hv|].
    unfold bursts.
    change (quantiles Py313 [tx_time r2 - tx_time r1] 4)
      with (Ok [NInt (tx_time r2 - tx_time r1); NInt (tx_time r2 - tx_time r1);
                NInt (tx_time r2 - tx_time r1)]).
    cbn [bind div5].
    pose proof (Hg _ Hb ltac:(now left)) as Hg1.
    destruct (int_truediv_returns (tx_time r2 - tx_time r1) 5 1005) as [q Hq];
      [discriminate | split; discriminate
      | apply (within_range _ 2 Hg1); split; discriminate |].
    rewrite Hq. cbn [bind]. eexists. reflexivity.
  - set (gs := gaps (r1 :: r2 :: r3 :: rows)) in *.
    assert (Hl : (2 <= length gs)%nat) by (unfold gs; cbn [gaps length]; lia).
    destruct (quantiles_returns v gs Hl (fun x Hx => Hg x Hb Hx)) as (q1 & q2 & q3 & Hq).
    destruct gs as [|g gs']; [simpl in Hl; lia|].
    unfold bursts. rewrite Hq. cbn [bind div5]. eexists. reflexivity.
Qed.

(** X19 (when [score] returns): on a history whose time stamps stay below
    [2^1000] in absolute value, [score] returns a score and flags, except
    on the interpreters up to 3.12 when the history has exactly two
    records. *)
Theorem score_returns_on_bounded_times v rows addr :
  bounded_times rows ->
  (v = Py38_312 -> length rows <> 2%nat) ->
  exists s fl, score v rows addr = Ok (s, fl).
Proof.
  intros Hb Hv. destruct rows as [|r rows].
  - eexists _, _. reflexivity.
  - rewrite score_sum by discriminate.
    destruct (burst_count_returns v (r :: rows) Hb Hv) as [b ->].
    cbn [bind]. eexists _, _. reflexivity.
Qed.

Lemma score_returns_on_bounded_times_witness :
  bounded_times cold_history
  /\ (Py38_312 = Py38_312 -> length cold_history <> 2%nat)
  /\ exists s fl, score Py38_312 cold_history "0xABC" = Ok (s, fl).
Proof.
  assert (Hb : bounded_times cold_history).
  { intros r Hr. unfold cold_history in Hr. simpl in Hr.
    repeat (destruct Hr as [<-|Hr]; [unfold time_bound; split; reflexivity|]).
    destruct Hr. }
  assert (Hv : Py38_312 = Py38_312 -> length cold_history <> 2%nat)
    by (intros _; discriminate).
  split; [exact Hb|]. split; [exact Hv|].
  exact (score_returns_on_bounded_times Py38_312 cold_history "0xABC" Hb Hv).
Defined.

(** ** Which methods are sensitive *)

Lemma append_assoc_r (a b c : string) :
  ((a ++ b) ++ c)%string = (a ++ (b ++ c))%string.
Proof.
  induction a as [|x a IH]; [reflexivity|]. now rewrite !append_cons, IH.
Qed.

Lemma Substring_trans s t u : Substring s t -> Substring t u -> Substring s u.
Proof.
  intros (p1 & q1 & ->) (p2 & q2 & ->).
  exists (p2 ++ p1)%string, (q1 ++ q2)%string.
  now rewrite !append_assoc_r.
Qed.

(** X24 (sensitive methods): a record is counted as a sensitive call
    exactly when the target sent it and its method contains ["permit"],
    ["increaseallowance"] or ["setapprovalforall"] somewhere; the entry
    ["permit2"] of [SUS_METHODS] never changes the outcome, since it
    contains ["permit"]. *)
Theorem sensitive_methods addr r :
  is_approval addr r = true <->
  tx_from r = addr
  /\ (Substring "permit" (tx_method r)
      \/ Substring "increaseallowance" (tx_method r)
      \/ Substring "setapprovalforall" (tx_method r)).
Proof.
  rewrite is_approval_spec. unfold Approval, SUS_METHODS. split.
  - intros [Hf (m & Hm & Hs)]. split; [exact Hf|].
    simpl in Hm. destruct Hm as [<-|[<-|[<-|[<-|[]]]]]; auto.
    left. apply Substring_trans with (t := "permit2"); [|exact Hs].
    now exists EmptyString, "2".
  - intros [Hf [Hs|[Hs|Hs]]]; (split; [exact Hf|]);
      eexists; (split; [|exact Hs]); simpl; tauto.
Qed.
